(** * Bunsekikun: grouping of morphemes into words, dictionary lookup and
    the page's state handlers

    A shallow embedding of [src/app/page.tsx].  Strings are byte strings
    holding the UTF-8 encoding of the JavaScript strings of the source; two
    well-formed strings are equal as JavaScript strings exactly when their
    encodings are equal, so [===] on strings is [String.eqb]. *)

From Stdlib Require Import List Bool Arith Lia ZArith.
From Stdlib Require Import Strings.String Strings.Ascii.
Import ListNotations.

Open Scope string_scope.
Open Scope list_scope.

(** ** JavaScript helpers shared by the components *)

Module Js.

(** A string in a boolean position: only the empty string is falsy. *)
Definition truthy (s : string) : bool := negb (s =? "").

(** [a || b] where [a] may be [undefined] (here [None]) or a string. *)
Definition or_else (a : option string) (b : string) : string :=
  match a with
  | Some s => if truthy s then s else b
  | None => b
  end.

(** [Array.prototype.join]. *)
Definition join (sep : string) (parts : list string) : string :=
  String.concat sep parts.

Definition bytes (l : list nat) : string :=
  string_of_list_ascii (map ascii_of_nat l).

Definition reverse (s : string) : string :=
  string_of_list_ascii (rev (list_ascii_of_string s)).

(** The encodings of the code points that ECMAScript calls WhiteSpace or
    LineTerminator, the ones [String.prototype.trim] removes. *)
Definition whiteSpace : list string :=
  map bytes
    [ [9]; [10]; [11]; [12]; [13]; [32];
      [194; 160];
      [225; 154; 128];
      [226; 128; 128]; [226; 128; 129]; [226; 128; 130]; [226; 128; 131];
      [226; 128; 132]; [226; 128; 133]; [226; 128; 134]; [226; 128; 135];
      [226; 128; 136]; [226; 128; 137]; [226; 128; 138];
      [226; 128; 168]; [226; 128; 169]; [226; 128; 175];
      [226; 129; 159];
      [227; 128; 128];
      [239; 187; 191] ].

Fixpoint dropPrefix (p s : string) : option string :=
  match p, s with
  | EmptyString, _ => Some s
  | String a p', String b s' => if Ascii.eqb a b then dropPrefix p' s' else None
  | String _ _, EmptyString => None
  end.

Fixpoint dropOne (ws : list string) (s : string) : option string :=
  match ws with
  | [] => None
  | w :: ws' =>
      match dropPrefix w s with
      | Some rest => Some rest
      | None => dropOne ws' s
      end
  end.

Fixpoint dropAll (fuel : nat) (ws : list string) (s : string) : string :=
  match fuel with
  | O => s
  | S fuel' =>
      match dropOne ws s with
      | Some rest => dropAll fuel' ws rest
      | None => s
      end
  end.

Definition trimStart (s : string) : string :=
  dropAll (String.length s) whiteSpace s.

Definition trimEnd (s : string) : string :=
  reverse (dropAll (String.length s) (map reverse whiteSpace) (reverse s)).

(** [String.prototype.trim]. *)
Definition trim (s : string) : string := trimEnd (trimStart s).

End Js.

(** ** Tokens and words *)

(** The raw token returned by kuromoji.js.  The interface declares
    [reading] and [pronunciation] as strings, but kuromoji leaves them
    undefined for unknown words, which is what [token.reading || ...]
    in [groupTokens] is for: they are optional here. *)
Record KuromojiToken : Type := mkToken {
  surface_form : string;
  pos : string;
  pos_detail_1 : string;
  pos_detail_2 : string;
  pos_detail_3 : string;
  conjugated_type : string;
  conjugated_form : string;
  basic_form : string;
  reading : option string;
  pronunciation : option string
}.

(** The internal representation of a token: [[surface, reading, pos]]. *)
Definition AnalyzedToken : Type := (string * string * string)%type.

Definition at0 (t : AnalyzedToken) : string := fst (fst t).
Definition at1 (t : AnalyzedToken) : string := snd (fst t).
Definition at2 (t : AnalyzedToken) : string := snd t.

(** What indexing past the end of a word yields; no reachable state reads it. *)
Definition noToken : AnalyzedToken := ("", "", "").

(** A word is a group of one or more tokens. *)
Definition AnalyzedWord : Type := list AnalyzedToken.

Record AnalysisResult : Type := mkAnalysis {
  word_list : list AnalyzedWord
}.

(** ** [groupTokens] *)

Module Grouping.

(** [[token.surface_form, token.reading || token.surface_form, token.pos]] *)
Definition newToken (token : KuromojiToken) : AnalyzedToken :=
  (surface_form token,
   Js.or_else (reading token) (surface_form token),
   pos token).

(** The condition of the [if] inside the loop. *)
Definition continues (token : KuromojiToken) (prevPos : string) : bool :=
  ((pos token =? "助動詞") && (prevPos =? "動詞"))
  || ((pos token =? "助詞")
      && ((pos_detail_1 token =? "接続助詞") || (pos_detail_1 token =? "終助詞")))
  || ((pos token =? "動詞") && (prevPos =? "動詞")
      && (pos_detail_1 token =? "非自立"))
  || ((pos token =? "名詞") && (pos_detail_1 token =? "接尾")).

(** The two variables the loop updates: [wordList] and [currentWord]. *)
Definition Scan : Type := (list AnalyzedWord * AnalyzedWord)%type.

(** One call of the [forEach] callback. *)
Definition step (st : Scan) (token : KuromojiToken) : Scan :=
  let '(wordList, currentWord) := st in
  let newToken := newToken token in
  if Nat.eqb (List.length currentWord) 0 then
    (wordList, currentWord ++ [newToken])
  else
    let prevPos := at2 (nth (List.length currentWord - 1) currentWord noToken) in
    if continues token prevPos then
      (wordList, currentWord ++ [newToken])
    else
      (wordList ++ [currentWord], [newToken]).

(** The code after the loop. *)
Definition finish (st : Scan) : list AnalyzedWord :=
  let '(wordList, currentWord) := st in
  if Nat.ltb 0 (List.length currentWord) then wordList ++ [currentWord]
  else wordList.

Definition groupTokens (tokens : list KuromojiToken) : list AnalyzedWord :=
  if Nat.eqb (List.length tokens) 0 then []
  else finish (fold_left step tokens ([], [])).

(** The text a word is displayed with: [word.map(token => token[0]).join('')]. *)
Definition surface (word : AnalyzedWord) : string :=
  Js.join "" (map at0 word).

(** A word holds a token. *)
Definition nonEmpty {A : Type} (l : list A) : Prop := l <> [].

(** The continuation rule in the words of the specification. *)
Definition continuation (token : KuromojiToken) (prevPOS : string) : Prop :=
  (pos token = "助動詞" /\ prevPOS = "動詞")
  \/ (pos token = "助詞"
      /\ (pos_detail_1 token = "接続助詞" \/ pos_detail_1 token = "終助詞"))
  \/ (pos token = "動詞" /\ prevPOS = "動詞" /\ pos_detail_1 token = "非自立")
  \/ (pos token = "名詞" /\ pos_detail_1 token = "接尾").

End Grouping.

(** ** The Jisho lookup *)

Module Jisho.

Record JishoJapaneseWord : Type := mkJapanese {
  word : option string;
  jreading : option string
}.

Record JishoSense : Type := mkSense {
  english_definitions : list string;
  parts_of_speech : list string;
  links : list (string * string);
  sense_tags : list string;
  restrictions : list string;
  see_also : list string;
  antonyms : list string;
  info : list string
}.

Record Attribution : Type := mkAttribution {
  jmdict : bool;
  jmnedict : bool;
  dbpedia : bool + string
}.

Record JishoData : Type := mkData {
  slug : string;
  is_common : bool;
  tags : list string;
  jlpt : list string;
  japanese : list JishoJapaneseWord;
  senses : list JishoSense;
  attribution : Attribution
}.

(** The body of a response once [response.json()] has parsed it: an object
    whose [data] property, when there is one, is the list of entries (the
    proxy route answers [{ data: ... }] or [{ error: ... }]). *)
Record Body : Type := mkBody {
  data : option (list JishoData)
}.

(** What [fetch] resolves with.  [json] is [None] when [response.json()]
    rejects because the body cannot be read as JSON. *)
Record Response : Type := mkResponse {
  ok : bool;
  status : Z;
  json : option Body
}.

(** How the [fetch] promise settles. *)
Inductive Fetched : Type :=
| Rejected
| Resolved (response : Response).

(** The ways the promise of [getWordMeaningWithJisho] rejects. *)
Inductive LookupError : Type :=
| FetchFailed
| BadStatus (code : Z)
| BodyUnreadable.

(** How an awaited call ends. *)
Inductive Settled (A : Type) : Type :=
| Returns (value : A)
| Throws (e : LookupError).
Arguments Returns {A} value.
Arguments Throws {A} e.

(** [getWordMeaningWithJisho] from the point where [fetch] has settled.
    The function is asynchronous; the request it sends is keyed on [word]
    and the rest of its body runs on what comes back. *)
Definition getWordMeaningWithJisho (fetched : Fetched)
  : Settled (option JishoData) :=
  match fetched with
  | Rejected => Throws FetchFailed
  | Resolved response =>
      if negb (ok response) then Throws (BadStatus (status response))
      else
        match json response with
        | None => Throws BodyUnreadable
        | Some result =>
            match data result with
            | Some (first :: _) => Returns (Some first)
            | Some [] => Returns None
            | None => Returns None
            end
        end
  end.

(** The call failed: transport (the fetch rejects or the body cannot be
    read) or status (the response is not ok). *)
Definition failed (fetched : Fetched) : Prop :=
  match fetched with
  | Rejected => True
  | Resolved response => ok response = false \/ json response = None
  end.

(** The entries a successful call returned. *)
Definition entries (fetched : Fetched) : list JishoData :=
  match fetched with
  | Resolved {| json := Some {| data := Some l |} |} => l
  | _ => []
  end.

End Jisho.

(** ** The [WordInfo] component *)

Module WordInfo.

Import Jisho.

(** The three [useState] cells of the component. *)
Record State : Type := mkState {
  jishoData : option JishoData;
  isLoading : bool;
  error : string
}.

Definition initial : State := mkState None false "".

Definition setJishoData (v : option JishoData) (s : State) : State :=
  mkState v (isLoading s) (error s).
Definition setIsLoading (v : bool) (s : State) : State :=
  mkState (jishoData s) v (error s).
Definition setError (v : string) (s : State) : State :=
  mkState (jishoData s) (isLoading s) v.

Definition fetchFailedMessage : string :=
  "Failed to fetch definition from Jisho.org.".

(** The part of [fetchMeaning] that runs when the awaited lookup has
    settled: the rest of the [try], the [catch] and the [finally]. *)
Definition fetchMeaning_settle (r : Settled (option JishoData)) (s : State)
  : State :=
  match r with
  | Returns result => setIsLoading false (setJishoData result s)
  | Throws _ => setIsLoading false (setError fetchFailedMessage s)
  end.

(** The effect, up to the [await].  It returns the new state and the base
    form the lookup is sent for, if one is sent.  [selectedWord[0][0]] on a
    word with no token throws inside the [try]. *)
Definition effect (selectedWord : option AnalyzedWord) (s : State)
  : State * option string :=
  match selectedWord with
  | None => (setJishoData None s, None)
  | Some w =>
      let s1 := setJishoData None (setError "" (setIsLoading true s)) in
      match w with
      | first :: _ => (s1, Some (at0 first))
      | [] => (setIsLoading false (setError fetchFailedMessage s1), None)
      end
  end.

(** The panel together with what is outside it: the [selectedWord] prop
    and the lookups that were sent and have not settled yet, oldest first. *)
Record Panel : Type := mkPanel {
  view : State;
  selectedWord : option AnalyzedWord;
  inflight : list string
}.

Definition start : Panel := mkPanel initial None [].

(** What can happen to the panel.  [Select w]: [handleWordSelect] with a
    word object other than the selected one, so the dependency
    [[selectedWord]] changed and the effect runs.  [Close]:
    [handleCloseInfo].  [Settle i fetched]: the [i]-th lookup in flight
    settles, its fetch having ended as [fetched]. *)
Inductive Event : Type :=
| Select (w : AnalyzedWord)
| Close
| Settle (i : nat) (fetched : Fetched).

Fixpoint removeAt {A : Type} (i : nat) (l : list A) : list A :=
  match i, l with
  | _, [] => []
  | O, _ :: l' => l'
  | S i', x :: l' => x :: removeAt i' l'
  end.

Definition react (p : Panel) (e : Event) : Panel :=
  match e with
  | Select w =>
      let '(s, sent) := effect (Some w) (view p) in
      mkPanel s (Some w)
        (match sent with
         | Some baseForm => inflight p ++ [baseForm]
         | None => inflight p
         end)
  | Close =>
      let '(s, _) := effect None (view p) in
      mkPanel s None (inflight p)
  | Settle i fetched =>
      match nth_error (inflight p) i with
      | Some _ =>
          mkPanel (fetchMeaning_settle (getWordMeaningWithJisho fetched) (view p))
            (selectedWord p) (removeAt i (inflight p))
      | None => p
      end
  end.

Definition run (p : Panel) (events : list Event) : Panel :=
  fold_left react events p.

End WordInfo.

(** ** The [AnalysisDisplay] component *)

Module AnalysisDisplay.

Definition createKey (word : AnalyzedWord) : string :=
  Js.join "-" (map at0 word).

(** [selectedWord && createKey(word) === createKey(selectedWord)]; an array
    is truthy whatever it holds. *)
Definition isSelected (selectedWord : option AnalyzedWord) (word : AnalyzedWord)
  : bool :=
  match selectedWord with
  | None => false
  | Some sel => createKey word =? createKey sel
  end.

End AnalysisDisplay.

(** ** The [App] component *)

Module App.

(** The tokenizer object: [tokenize] returns the tokens or throws ([None]). *)
Definition KuromojiTokenizer : Type := string -> option (list KuromojiToken).

(** The [useState] cells of [App]. *)
Record State : Type := mkState {
  inputText : string;
  analysis : option AnalysisResult;
  selectedWord : option AnalyzedWord;
  isLoading : bool;
  tokenizerLoading : bool;
  error : option string
}.

Definition setAnalysis (v : option AnalysisResult) (s : State) : State :=
  mkState (inputText s) v (selectedWord s) (isLoading s) (tokenizerLoading s)
    (error s).
Definition setSelectedWord (v : option AnalyzedWord) (s : State) : State :=
  mkState (inputText s) (analysis s) v (isLoading s) (tokenizerLoading s)
    (error s).
Definition setIsLoading (v : bool) (s : State) : State :=
  mkState (inputText s) (analysis s) (selectedWord s) v (tokenizerLoading s)
    (error s).
Definition setError (v : option string) (s : State) : State :=
  mkState (inputText s) (analysis s) (selectedWord s) (isLoading s)
    (tokenizerLoading s) v.

Definition blankMessage : string := "Please enter some text to analyze.".
Definition notReadyMessage : string := "Tokenizer is not ready yet. Please wait.".
Definition analyseFailedMessage : string := "Failed to analyze text.".

(** [!kuromojiTokenizer] *)
Definition isNull (t : option KuromojiTokenizer) : bool :=
  match t with Some _ => false | None => true end.

(** [handleAnalyse].  [kuromojiTokenizer] is the module-level variable,
    [None] while it is [null].  The result is the new state and the texts
    [tokenize] was called with, in order. *)
Definition handleAnalyse (kuromojiTokenizer : option KuromojiTokenizer)
  (s : State) : State * list string :=
  if negb (Js.truthy (Js.trim (inputText s))) then
    (setError (Some blankMessage) s, [])
  else if tokenizerLoading s || isNull kuromojiTokenizer then
    (setError (Some notReadyMessage) s, [])
  else
    let s1 :=
      setSelectedWord None
        (setAnalysis None (setError None (setIsLoading true s))) in
    match kuromojiTokenizer with
    | Some tokenizer =>
        match tokenizer (inputText s) with
        | Some tokens =>
            let groupedTokens := Grouping.groupTokens tokens in
            (setIsLoading false
               (setAnalysis (Some (mkAnalysis groupedTokens)) s1),
             [inputText s])
        | None =>
            (setIsLoading false (setError (Some analyseFailedMessage) s1),
             [inputText s])
        end
    | None =>
        (* a property read on null throws inside the try *)
        (setIsLoading false (setError (Some analyseFailedMessage) s1), [])
    end.

Definition handleWordSelect (word : AnalyzedWord) (s : State) : State :=
  setSelectedWord (Some word) s.

Definition handleCloseInfo (s : State) : State :=
  setSelectedWord None s.

(** The tagger is ready: the module-level tokenizer is set and the
    [tokenizerLoading] cell is back to [false]. *)
Definition ready (kuromojiTokenizer : option KuromojiTokenizer) (s : State)
  : bool :=
  negb (tokenizerLoading s) && negb (isNull kuromojiTokenizer).

End App.

(** ** Sample data

    Tokens as kuromoji tags them (IPADIC features), used to run the
    definitions on concrete inputs. *)

Module Sample.

Definition tabe : KuromojiToken :=
  mkToken "食べ" "動詞" "自立" "*" "*" "一段" "連用形" "食べる"
    (Some "タベ") (Some "タベ").
Definition ta : KuromojiToken :=
  mkToken "た" "助動詞" "*" "*" "*" "特殊・タ" "基本形" "た"
    (Some "タ") (Some "タ").
Definition no : KuromojiToken :=
  mkToken "の" "助詞" "接続助詞" "*" "*" "*" "*" "の" (Some "ノ") (Some "ノ").
Definition neko : KuromojiToken :=
  mkToken "猫" "名詞" "一般" "*" "*" "*" "*" "猫" (Some "ネコ") (Some "ネコ").
Definition tachi : KuromojiToken :=
  mkToken "たち" "名詞" "接尾" "一般" "*" "*" "*" "たち"
    (Some "タチ") (Some "タチ").
Definition to : KuromojiToken :=
  mkToken "と" "助詞" "並立助詞" "*" "*" "*" "*" "と" (Some "ト") (Some "ト").
Definition inu : KuromojiToken :=
  mkToken "犬" "名詞" "一般" "*" "*" "*" "*" "犬" (Some "イヌ") (Some "イヌ").
(** An unknown word: kuromoji gives it no reading. *)
Definition rocq : KuromojiToken :=
  mkToken "Rocq" "名詞" "固有名詞" "組織" "*" "*" "*" "*" None None.
Definition shimau : KuromojiToken :=
  mkToken "しまい" "動詞" "非自立" "*" "*" "五段・ワ行促音便" "連用形" "しまう"
    (Some "シマイ") (Some "シマイ").
Definition sugiru : KuromojiToken :=
  mkToken "すぎる" "動詞" "非自立" "*" "*" "一段" "基本形" "すぎる"
    (Some "スギル") (Some "スギル").

(** Two words of one token each and the entries Jisho has for them. *)
Definition nekoWord : AnalyzedWord := [("猫", "ネコ", "名詞")].
Definition inuWord : AnalyzedWord := [("犬", "イヌ", "名詞")].

Definition nekoEntry : Jisho.JishoData :=
  Jisho.mkData "猫" true ["wanikani15"] ["jlpt-n5"]
    [Jisho.mkJapanese (Some "猫") (Some "ねこ")]
    [Jisho.mkSense ["cat"] ["Noun"] [] [] [] [] [] []]
    (Jisho.mkAttribution true false (inl false)).
Definition inuEntry : Jisho.JishoData :=
  Jisho.mkData "犬" true ["wanikani2"] ["jlpt-n5"]
    [Jisho.mkJapanese (Some "犬") (Some "いぬ")]
    [Jisho.mkSense ["dog"] ["Noun"] [] [] [] [] [] []]
    (Jisho.mkAttribution true false (inl false)).

(** An answer of the proxy route with status 200 and the given entries. *)
Definition answer (found : list Jisho.JishoData) : Jisho.Fetched :=
  Jisho.Resolved (Jisho.mkResponse true 200 (Some (Jisho.mkBody (Some found)))).

(** A tokenizer that knows one sentence. *)
Definition tagger : App.KuromojiTokenizer :=
  fun text => if text =? "猫と猫" then Some [neko; to; neko] else Some [].

(** The page once the tokenizer is there, with the sentence typed in. *)
Definition typed : App.State :=
  App.mkState "猫と猫" None None false false None.

(** The page after the tokenizer failed to load, the text box empty, and
    the same with a sentence typed in. *)
Definition loadFailedBlank : App.State :=
  App.mkState "" None None false false (Some "Failed to load Kuromoji script from CDN.").
Definition loadFailedTyped : App.State :=
  App.mkState "猫と猫" None None false false
    (Some "Failed to load Kuromoji script from CDN.").

(** The page showing an analysis with its first word selected, the text
    box then emptied. *)
Definition shownThenEmptied : App.State :=
  App.mkState "　 " (Some (mkAnalysis [nekoWord; inuWord])) (Some nekoWord)
    false false None.

End Sample.

(** ** More of JavaScript *)

From Stdlib Require DecimalString DecimalNat DecimalFacts.

Module JsExtra.

(** A non-negative integer in a template literal: its decimal digits. *)
Definition numberToString (n : nat) : string :=
  DecimalString.NilEmpty.string_of_uint (Nat.to_uint n).

(** What reading a property of an object literal gives: one of its own
    values, something inherited from [Object.prototype] (a function or an
    object, never a string), or [undefined]. *)
Inductive Property : Type :=
| Own (value : string)
| Inherited
| Undefined.

(** The names every object inherits from [Object.prototype]. *)
Definition objectPrototype : list string :=
  [ "constructor"; "hasOwnProperty"; "isPrototypeOf"; "propertyIsEnumerable";
    "toLocaleString"; "toString"; "valueOf"; "__proto__";
    "__defineGetter__"; "__defineSetter__";
    "__lookupGetter__"; "__lookupSetter__" ].

Fixpoint own (table : list (string * string)) (key : string) : option string :=
  match table with
  | [] => None
  | (k, v) :: rest => if key =? k then Some v else own rest key
  end.

(** [table[key]] *)
Definition get (table : list (string * string)) (key : string) : Property :=
  match own table key with
  | Some v => Own v
  | None =>
      if existsb (String.eqb key) objectPrototype then Inherited else Undefined
  end.

(** [a || b] on what a property read gives. *)
Definition orElse (a b : Property) : Property :=
  match a with
  | Own v => if Js.truthy v then a else b
  | Inherited => a
  | Undefined => b
  end.

(** [Array.prototype.map] with the index passed to the callback, for a
    callback that may throw ([None]). *)
Fixpoint mapIndexed {A B : Type} (f : A -> nat -> option B) (index : nat)
  (l : list A) : option (list B) :=
  match l with
  | [] => Some []
  | x :: rest =>
      match f x index with
      | None => None
      | Some y =>
          match mapIndexed f (S index) rest with
          | None => None
          | Some ys => Some (y :: ys)
          end
      end
  end.

(** No character of the string is a hyphen. *)
Fixpoint dashFree (s : string) : Prop :=
  match s with
  | EmptyString => True
  | String c rest => c <> "-"%char /\ dashFree rest
  end.

End JsExtra.

(** ** What [AnalysisDisplay] renders *)

Module WordSpans.

Import JsExtra.

Definition posColors : list (string * string) :=
  [ ("名詞", "bg-green-200 text-green-800");
    ("助詞", "bg-yellow-200 text-yellow-800");
    ("動詞", "bg-red-200 text-red-800");
    ("助動詞", "bg-red-200 text-red-800");
    ("形容詞", "bg-blue-200 text-blue-800");
    ("副詞", "bg-purple-200 text-purple-800");
    ("接続詞", "bg-indigo-200 text-indigo-800");
    ("連体詞", "bg-pink-200 text-pink-800");
    ("感動詞", "bg-teal-200 text-teal-800");
    ("接頭詞", "bg-gray-200 text-gray-800");
    ("接尾辞", "bg-gray-200 text-gray-800");
    ("記号", "bg-gray-100 text-gray-600");
    ("フィラー", "bg-gray-200 text-gray-700");
    ("その他", "bg-gray-200 text-gray-700");
    ("補助記号", "bg-gray-100 text-gray-600");
    ("未知語", "bg-gray-300 text-gray-900") ].

(** [posColors[pos] || posColors["その他"]] *)
Definition colorClass (pos : string) : Property :=
  orElse (get posColors pos) (get posColors "その他").

(** One [<span>] of the display. *)
Record Span : Type := mkSpan {
  key : string;
  text : string;
  ruby : string;
  color : Property;
  selected : bool
}.

(** The callback of [analysis.word_list.map]; [word[0][2]] throws on a
    word with no token. *)
Definition span (selectedWord : option AnalyzedWord) (word : AnalyzedWord)
  (index : nat) : option Span :=
  let surface := Js.join "" (map at0 word) in
  let reading := Js.join "" (map at1 word) in
  match word with
  | [] => None
  | first :: _ =>
      let pos := at2 first in
      Some (mkSpan (numberToString index ++ "-" ++ surface)%string
                   surface reading (colorClass pos)
                   (AnalysisDisplay.isSelected selectedWord word))
  end.

(** The component: nothing without an analysis, else one span per word;
    [None] when rendering throws. *)
Definition render (analysis : option AnalysisResult)
  (selectedWord : option AnalyzedWord) : option (list Span) :=
  match analysis with
  | None => Some []
  | Some a => mapIndexed (span selectedWord) 0 (word_list a)
  end.

End WordSpans.

(** ** What [WordInfo] renders *)

Module PanelView.

Import JsExtra.

(** One sense: its numbered definitions and its parts of speech. *)
Definition senseLines (sense : Jisho.JishoSense) (index : nat)
  : option (string * string) :=
  Some ((numberToString (index + 1) ++ ". "
          ++ Js.join "; " (Jisho.english_definitions sense))%string,
        Js.join ", " (Jisho.parts_of_speech sense)).

(** The details panel: the three header lines and, under the meaning
    heading, the loading line, the error line, the senses and the
    not-found line, each shown or not. *)
Record Details : Type := mkDetails {
  title : string;
  readingLine : string;
  posLine : string;
  loadingShown : bool;
  errorShown : option string;
  sensesShown : option (list (string * string));
  notFoundShown : bool
}.

(** The component's output; [None] is the placeholder that asks to select
    a word. *)
Definition render (selectedWord : option AnalyzedWord) (s : WordInfo.State)
  : option Details :=
  match selectedWord with
  | None => None
  | Some w =>
      Some (mkDetails
              (Js.join "" (map at0 w))
              (Js.join "" (map at1 w))
              (Js.join ", " (map at2 w))
              (WordInfo.isLoading s)
              (if Js.truthy (WordInfo.error s) then Some (WordInfo.error s)
               else None)
              (match WordInfo.jishoData s with
               | Some entry => mapIndexed senseLines 0 (Jisho.senses entry)
               | None => None
               end)
              (match WordInfo.jishoData s with
               | Some _ => false
               | None => negb (WordInfo.isLoading s)
               end))
  end.

End PanelView.

(** ** The proxy route [src/app/api/jisho/route.js] *)

Module Route.

Import Jisho.

(** The object handed to [NextResponse.json]. *)
Inductive Payload : Type :=
| ErrorPayload (error : string)
| DataPayload (data : option (list JishoData)).

Record Reply : Type := mkReply {
  payload : Payload;
  code : Z
}.

Definition keywordRequired : Reply :=
  mkReply (ErrorPayload "Keyword is required") 400.
Definition proxyFailed : Reply :=
  mkReply (ErrorPayload "Failed to fetch data from Jisho API") 500.

(** [GET].  [keyword] is what [searchParams.get('keyword')] returned,
    [upstream] how the call to jisho.org settles.  The result is the reply
    and the keywords jisho.org was asked for. *)
Definition GET (keyword : option string) (upstream : Fetched)
  : Reply * list string :=
  match keyword with
  | None => (keywordRequired, [])
  | Some k =>
      if negb (Js.truthy k) then (keywordRequired, [])
      else
        (match upstream with
         | Rejected => proxyFailed
         | Resolved apiResponse =>
             if negb (ok apiResponse) then proxyFailed
             else
               match json apiResponse with
               | None => proxyFailed
               | Some body => mkReply (DataPayload (data body)) 200
               end
         end, [k])
  end.

(** The reply as the page's [fetch] receives it: [ok] for a status from
    200 to 299, and the payload as JSON, where only a [data] property
    that is there and not null is seen by the page. *)
Definition received (r : Reply) : Fetched :=
  Resolved
    (mkResponse
       ((200 <=? code r)%Z && (code r <=? 299)%Z)
       (code r)
       (Some (mkBody (match payload r with
                      | DataPayload d => d
                      | ErrorPayload _ => None
                      end)))).

End Route.

(** ** The theme switch [src/app/theme-provider.tsx] *)

Module Theme.

(** What the component touches outside itself: the ["theme"] item of
    [localStorage] and the class list of the document element. *)
Record Browser : Type := mkBrowser {
  stored : option string;
  classList : list string
}.

(** [DOMTokenList.add] and [remove]. *)
Definition add (c : string) (l : list string) : list string :=
  if existsb (String.eqb c) l then l else l ++ [c].
Definition remove (c : string) (l : list string) : list string :=
  filter (fun x => negb (x =? c)) l.

(** The effect that depends on [[theme]]. *)
Definition sync (theme : string) (b : Browser) : Browser :=
  mkBrowser (Some theme)
    (if theme =? "dark" then add "dark" (classList b)
     else remove "dark" (classList b)).

Record Provider : Type := mkProvider {
  theme : string;
  browser : Browser
}.

(** [setTheme(v)]: a new value re-renders and the [[theme]] effect runs;
    the same value does nothing. *)
Definition setTheme (v : string) (p : Provider) : Provider :=
  if v =? theme p then p else mkProvider v (sync v (browser p)).

(** Mounting: the first effect reads the stored theme, the second runs
    for the initial theme, then the stored theme, if any, is set. *)
Definition mount (b : Browser) : Provider :=
  let storedTheme := stored b in
  let p := mkProvider "light" (sync "light" b) in
  match storedTheme with
  | Some t => if Js.truthy t then setTheme t p else p
  | None => p
  end.

(** The button's [onClick]. *)
Definition toggle (p : Provider) : Provider :=
  setTheme (if theme p =? "dark" then "light" else "dark") p.

Definition icon (p : Provider) : string :=
  if theme p =? "dark" then "🌙" else "☀️".

End Theme.

(** ** The page as a whole: loading the tokenizer and the user's actions *)

Module Page.

Import App.

Definition setTokenizerLoading (v : bool) (s : State) : State :=
  mkState (inputText s) (analysis s) (selectedWord s) (isLoading s) v (error s).
Definition setInputText (v : string) (s : State) : State :=
  mkState v (analysis s) (selectedWord s) (isLoading s) (tokenizerLoading s)
    (error s).

(** The page and what [loadKuromoji] leaves pending: the module-level
    [kuromojiTokenizer], the timeout not yet cleared or fired, the script
    not yet loaded or failed, the build not yet called back. *)
Record World : Type := mkWorld {
  app : State;
  kuromojiTokenizer : option KuromojiTokenizer;
  timer : bool;
  script : bool;
  building : bool
}.

Definition undefinedMessage : string :=
  "Kuromoji script loaded but window.kuromoji is undefined.".
Definition buildFailedMessage : string :=
  "Failed to build Kuromoji tokenizer.".
Definition scriptFailedMessage : string :=
  "Failed to load Kuromoji script from CDN.".
Definition timedOutMessage : string :=
  "Kuromoji script load timed out. Please check your connection or try again later.".

(** [loadKuromoji], up to [document.body.appendChild(script)]. *)
Definition loadKuromoji (w : World) : World :=
  mkWorld (setTokenizerLoading true (app w)) (kuromojiTokenizer w)
    true true (building w).

(** [script.onload]; [hasKuromoji] is whether [window.kuromoji] is set. *)
Definition onload (hasKuromoji : bool) (w : World) : World :=
  if negb hasKuromoji then
    mkWorld (setError (Some undefinedMessage)
               (setTokenizerLoading false (app w)))
      (kuromojiTokenizer w) false false (building w)
  else
    mkWorld (app w) (kuromojiTokenizer w) false false true.

(** The callback given to [build]: [None] is a call with [err] set. *)
Definition built (result : option KuromojiTokenizer) (w : World) : World :=
  match result with
  | None =>
      mkWorld (setError (Some buildFailedMessage)
                 (setTokenizerLoading false (app w)))
        (kuromojiTokenizer w) (timer w) (script w) false
  | Some tokenizer =>
      mkWorld (setTokenizerLoading false (app w)) (Some tokenizer)
        (timer w) (script w) false
  end.

(** [script.onerror]. *)
Definition onerror (w : World) : World :=
  mkWorld (setError (Some scriptFailedMessage)
             (setTokenizerLoading false (app w)))
    (kuromojiTokenizer w) false false (building w).

(** The callback of [setTimeout]. *)
Definition ontimeout (w : World) : World :=
  mkWorld (setError (Some timedOutMessage)
             (setTokenizerLoading false (app w)))
    (kuromojiTokenizer w) false (script w) (building w).

Definition exampleTexts : list string :=
  [ "吾輩は猫である。名前はまだ無い";
    "どこで生れたかとんと見当がつかぬ";
    "何でも薄暗いじめじめした所でニャーニャー泣いていた事だけは記憶している。" ].

(** The [disabled] attribute and the label of the button. *)
Definition analyseDisabled (s : State) : bool :=
  isLoading s || tokenizerLoading s.
Definition analyseLabel (s : State) : string :=
  if tokenizerLoading s then "Loading Analyzer..."
  else if isLoading s then "Analyzing..." else "Analyse Text!".

(** What can happen to the page.  The browser delivers a script event, the
    timeout and the build callback only while they are pending; a click on
    a disabled button or on a word that is not displayed does not happen. *)
Inductive Event : Type :=
| Typed (text : string)
| ClickExample (i : nat)
| ClickAnalyse
| ClickWord (i : nat)
| ClickClose
| ScriptLoaded (hasKuromoji : bool)
| ScriptFailed
| TimedOut
| Built (result : option KuromojiTokenizer).

Definition withApp (s : State) (w : World) : World :=
  mkWorld s (kuromojiTokenizer w) (timer w) (script w) (building w).

Definition handle (w : World) (e : Event) : World :=
  match e with
  | Typed text => withApp (setInputText text (app w)) w
  | ClickExample i =>
      match nth_error exampleTexts i with
      | Some text => withApp (setInputText text (app w)) w
      | None => w
      end
  | ClickAnalyse =>
      if analyseDisabled (app w) then w
      else withApp (fst (handleAnalyse (kuromojiTokenizer w) (app w))) w
  | ClickWord i =>
      match analysis (app w) with
      | Some a =>
          match nth_error (word_list a) i with
          | Some word => withApp (handleWordSelect word (app w)) w
          | None => w
          end
      | None => w
      end
  | ClickClose => withApp (handleCloseInfo (app w)) w
  | ScriptLoaded hasKuromoji => if script w then onload hasKuromoji w else w
  | ScriptFailed => if script w then onerror w else w
  | TimedOut => if timer w then ontimeout w else w
  | Built result => if building w then built result w else w
  end.

Definition run (w : World) (events : list Event) : World :=
  fold_left handle events w.

(** The cells as [useState] initialises them, and the page once the mount
    effect has called [loadKuromoji]. *)
Definition initial : State :=
  mkState "吾輩は猫である。名前はまだ無い" None None false true None.
Definition mounted : World :=
  loadKuromoji (mkWorld initial None false false false).

End Page.

(** ** Notions used to state how [groupTokens] composes *)

Module Seam.

Import Grouping.

(** A scan that was started on a fresh state, placed after words already
    emitted and a word still open: the open word goes in front of the first
    word of the scan. *)
Definition glue (emitted : list AnalyzedWord) (opened : AnalyzedWord)
  (st : Scan) : Scan :=
  match fst st with
  | [] => (emitted, opened ++ snd st)
  | w :: ws => (emitted ++ (opened ++ w) :: ws, snd st)
  end.

(** Two tokens with the same surface, reading, part of speech and first
    detail. *)
Definition agree (t u : KuromojiToken) : Prop :=
  surface_form t = surface_form u
  /\ reading t = reading u
  /\ pos t = pos u
  /\ pos_detail_1 t = pos_detail_1 u.

End Seam.

(** ** What stays true of the page *)

Module PageInvariant.

Import App Page.

(** The page is consistent: it is not in the middle of an analysis; the
    selected word is one of the displayed words; the displayed words are a
    grouping of tokens; a tokenizer that is set is ready and was built
    after the script loaded; the timeout is armed only while the script is
    loading; the page is loading only while the script or the build is
    pending; without a tokenizer and not loading, an error is displayed;
    and an analysis is displayed only when the tokenizer is there. *)
Record consistent (w : World) : Prop := mkConsistent {
  idle : isLoading (app w) = false;
  selection_shown :
    forall word, selectedWord (app w) = Some word ->
      exists a, analysis (app w) = Some a /\ In word (word_list a);
  words_grouped :
    forall a, analysis (app w) = Some a ->
      exists tokens, word_list a = Grouping.groupTokens tokens;
  tokenizer_ready :
    isNull (kuromojiTokenizer w) = false -> tokenizerLoading (app w) = false;
  after_script :
    building w = true \/ isNull (kuromojiTokenizer w) = false ->
    script w = false;
  timer_with_script : timer w = true -> script w = true;
  loading_pending :
    tokenizerLoading (app w) = true -> script w = true \/ building w = true;
  failure_reported :
    tokenizerLoading (app w) = false -> isNull (kuromojiTokenizer w) = true ->
    error (app w) <> None;
  analysis_needs_tokenizer :
    analysis (app w) <> None -> isNull (kuromojiTokenizer w) = false
}.

(** An event other than the build calling back. *)
Definition notBuilt (e : Event) : Prop :=
  match e with
  | Built _ => False
  | _ => True
  end.

(** The events of a user who waits for the tokenizer, types a sentence,
    analyses it and clicks on its first word. *)
Definition session (tokenizer : KuromojiTokenizer) (text : string)
  : list Event :=
  [ScriptLoaded true; Built (Some tokenizer); Typed text; ClickAnalyse;
   ClickWord 0].

End PageInvariant.

(** ** What stays true of the theme switch *)

Module ThemeInvariant.

Import Theme.

(** The browser agrees with the component: the stored item is the theme
    and the document has the class [dark] exactly for the dark theme. *)
Definition synced (p : Provider) : Prop :=
  stored (browser p) = Some (theme p)
  /\ (In "dark" (classList (browser p)) <-> theme p = "dark").

(** The page after it was mounted on browser [b] and the button was
    clicked [n] times. *)
Definition clicked (n : nat) (b : Browser) : Provider :=
  Nat.iter n toggle (mount b).

(** The theme [mount] restores from what is stored. *)
Definition restored (b : Browser) : string :=
  match stored b with
  | Some t => if Js.truthy t then t else "light"
  | None => "light"
  end.

End ThemeInvariant.

(** * Properties of [groupTokens] *)

Section GroupingFacts.

Import Grouping.

Lemma join_empty_cons (x : string) (xs : list string) :
  Js.join "" (x :: xs) = (x ++ Js.join "" xs)%string.
Proof.
  unfold Js.join. destruct xs as [|y ys]; simpl.
  - induction x as [|c x IH]; simpl; [reflexivity | now rewrite <- IH].
  - reflexivity.
Qed.

Lemma string_app_assoc (a b c : string) :
  ((a ++ b) ++ c = a ++ (b ++ c))%string.
Proof. induction a as [|x a IH]; simpl; [reflexivity | now rewrite IH]. Qed.

Lemma join_empty_app (l1 l2 : list string) :
  Js.join "" (l1 ++ l2) = (Js.join "" l1 ++ Js.join "" l2)%string.
Proof.
  induction l1 as [|x l1 IH]; [reflexivity|].
  rewrite <- app_comm_cons, !join_empty_cons, IH.
  now rewrite string_app_assoc.
Qed.

(** Joining the words' surfaces is joining the surfaces of all their tokens. *)
Lemma join_surfaces (ws : list AnalyzedWord) :
  Js.join "" (map surface ws) = Js.join "" (map at0 (List.concat ws)).
Proof.
  induction ws as [|w ws IH]; [reflexivity|].
  cbn [map List.concat]. rewrite join_empty_cons, map_app, join_empty_app, IH.
  reflexivity.
Qed.

Lemma continues_spec (token : KuromojiToken) (prevPos : string) :
  continues token prevPos = true <-> continuation token prevPos.
Proof.
  unfold continues, continuation.
  rewrite !orb_true_iff, !andb_true_iff, !orb_true_iff, !String.eqb_eq.
  tauto.
Qed.

Lemma last_index (w : AnalyzedWord) :
  nth (List.length w - 1) w noToken = last w noToken.
Proof.
  induction w as [|a w IH]; [reflexivity|].
  destruct w as [|b w]; [reflexivity|].
  change (last (a :: b :: w) noToken) with (last (b :: w) noToken).
  rewrite <- IH. cbn [List.length].
  replace (S (S (List.length w)) - 1) with (S (S (List.length w) - 1)) by lia.
  reflexivity.
Qed.

(** [step] on an open word that has a token already. *)
Lemma step_open (wl : list AnalyzedWord) (cw : AnalyzedWord)
  (token : KuromojiToken) :
  cw <> [] ->
  step (wl, cw) token =
    if continues token (at2 (last cw noToken))
    then (wl, cw ++ [newToken token])
    else (wl ++ [cw], [newToken token]).
Proof.
  intros Hcw. unfold step. rewrite last_index.
  destruct cw as [|a cw]; [congruence | reflexivity].
Qed.

Lemma step_fresh (wl : list AnalyzedWord) (token : KuromojiToken) :
  step (wl, []) token = (wl, [newToken token]).
Proof. reflexivity. Qed.

(** The scan only ever cuts the input: started on the image of a cut of the
    tokens read so far, it ends on the image of a cut of all the tokens. *)
Lemma scan_cuts (T : list KuromojiToken) :
  forall (pw : list (list KuromojiToken)) (pc : list KuromojiToken),
  exists pw' pc',
    fold_left step T (map (map newToken) pw, map newToken pc)
      = (map (map newToken) pw', map newToken pc')
    /\ List.concat pw' ++ pc' = List.concat pw ++ pc ++ T
    /\ (Forall nonEmpty pw -> Forall nonEmpty pw')
    /\ (pc <> [] \/ T <> [] -> pc' <> []).
Proof.
  induction T as [|t T IH]; intros pw pc.
  - exists pw, pc. rewrite app_nil_r. repeat split; auto.
    intros [H|H]; congruence.
  - cbn [fold_left].
    destruct pc as [|c pc].
    + cbn [map]. rewrite step_fresh.
      destruct (IH pw [t]) as (pw' & pc' & E & Hc & Hn & Ho).
      exists pw', pc'. repeat split; auto.
      intros _. apply Ho. left. discriminate.
    + rewrite step_open by discriminate.
      destruct (continues t _).
      * destruct (IH pw ((c :: pc) ++ [t])) as (pw' & pc' & E & Hc & Hn & Ho).
        exists pw', pc'. rewrite map_app in E. repeat split; auto.
        -- rewrite Hc, <- !app_assoc. reflexivity.
        -- intros _. apply Ho. left. discriminate.
      * destruct (IH (pw ++ [c :: pc]) [t]) as (pw' & pc' & E & Hc & Hn & Ho).
        exists pw', pc'. rewrite !map_app in E. repeat split; auto.
        -- rewrite Hc, concat_app. cbn [List.concat]. rewrite app_nil_r, <- !app_assoc.
           reflexivity.
        -- intros Hpw. apply Hn. apply Forall_app. split; auto.
           constructor; [discriminate | constructor].
        -- intros _. apply Ho. left. discriminate.
Qed.

(** The result of [groupTokens] is the image of a cut of its input into
    non-empty runs. *)
Lemma groupTokens_cut (T : list KuromojiToken) :
  exists parts : list (list KuromojiToken),
    groupTokens T = map (map newToken) parts
    /\ List.concat parts = T
    /\ Forall nonEmpty parts.
Proof.
  unfold groupTokens. destruct T as [|t T].
  - exists []. repeat split; constructor.
  - cbn [List.length Nat.eqb].
    destruct (scan_cuts (t :: T) [] []) as (pw & pc & E & Hc & Hn & Ho).
    match goal with
    | |- context [fold_left step ?l ?i] =>
        replace (fold_left step l i)
          with (map (map newToken) pw, map newToken pc) by (symmetry; exact E)
    end.
    cbn [List.concat app] in Hc.
    assert (Hpc : pc <> []) by (apply Ho; right; discriminate).
    exists (pw ++ [pc]). repeat split.
    + unfold finish. destruct pc as [|c pc]; [congruence|].
      cbn [map List.length Nat.ltb Nat.leb]. rewrite map_app. reflexivity.
    + rewrite concat_app. cbn [List.concat]. now rewrite app_nil_r.
    + apply Forall_app. split; [apply Hn; constructor|].
      constructor; [exact Hpc | constructor].
Qed.

Lemma groupTokens_concat (T : list KuromojiToken) :
  List.concat (groupTokens T) = map newToken T.
Proof.
  destruct (groupTokens_cut T) as (parts & E & Hc & _).
  rewrite E, <- Hc, concat_map. reflexivity.
Qed.

(** After a non-empty input the scan holds a non-empty open word, and the
    grouping of that input is the emitted words followed by the open one. *)
Lemma scan_open (T : list KuromojiToken) :
  T <> [] ->
  exists wl cw,
    fold_left step T ([], []) = (wl, cw)
    /\ cw <> []
    /\ groupTokens T = wl ++ [cw].
Proof.
  intros HT.
  destruct (scan_cuts T [] []) as (pw & pc & E & _ & _ & Ho).
  assert (Hpc : pc <> []) by (apply Ho; now right).
  exists (map (map newToken) pw), (map newToken pc). repeat split.
  - exact E.
  - destruct pc; [congruence | discriminate].
  - unfold groupTokens. destruct T as [|t T]; [congruence|].
    cbn [List.length Nat.eqb].
    match goal with
    | |- context [fold_left step ?l ?i] =>
        replace (fold_left step l i)
          with (map (map newToken) pw, map newToken pc) by (symmetry; exact E)
    end.
    unfold finish. destruct pc as [|c pc]; [congruence | reflexivity].
Qed.

(** Reading one more token, in terms of the grouping so far: its last word
    is the open word. *)
Lemma groupTokens_snoc (T : list KuromojiToken) (token : KuromojiToken) :
  T <> [] ->
  groupTokens (T ++ [token]) =
    if continues token (at2 (last (last (groupTokens T) []) noToken))
    then removelast (groupTokens T)
           ++ [last (groupTokens T) [] ++ [newToken token]]
    else groupTokens T ++ [[newToken token]].
Proof.
  intros HT. destruct (scan_open T HT) as (wl & cw & E & Hcw & EG).
  rewrite EG, last_last, removelast_last.
  unfold groupTokens at 1.
  destruct (T ++ [token]) as [|x l] eqn:EA.
  { destruct T; discriminate. }
  cbn [List.length Nat.eqb]. rewrite <- EA, fold_left_app, E.
  cbn [fold_left]. rewrite step_open by exact Hcw.
  destruct (continues token _); unfold finish.
  - destruct cw; [congruence | reflexivity].
  - reflexivity.
Qed.

(** Dependent verbs after a verb all join the open word. *)
Lemma scan_verb_chain (ds : list KuromojiToken) :
  Forall (fun d => pos d = "動詞" /\ pos_detail_1 d = "非自立") ds ->
  forall wl cw,
    cw <> [] -> at2 (last cw noToken) = "動詞" ->
    fold_left step ds (wl, cw) = (wl, cw ++ map newToken ds).
Proof.
  induction 1 as [|d ds [Hp Hd] _ IH]; intros wl cw Hcw Hv.
  - now rewrite app_nil_r.
  - cbn [fold_left map]. rewrite step_open by exact Hcw.
    assert (Hc : continues d (at2 (last cw noToken)) = true).
    { apply continues_spec. right. right. left. auto. }
    rewrite Hc, IH.
    + now rewrite <- app_assoc.
    + destruct cw; discriminate.
    + rewrite last_last. exact Hp.
Qed.

End GroupingFacts.

Section GroupingClaims.

Import Grouping.

(** C2.  For every token sequence [T], joining the surfaces of the words
    of [groupTokens T], in order, gives the same text as joining the
    surfaces of the tokens of [T], in order: grouping drops, reorders and
    duplicates no surface text. *)
Theorem grouping_keeps_surface_text (T : list KuromojiToken) :
  Js.join "" (map surface (groupTokens T))
  = Js.join "" (map surface_form T).
Proof.
  rewrite join_surfaces, groupTokens_concat, map_map.
  reflexivity.
Qed.

(** C3.  For every token sequence [T], every word of [groupTokens T] is
    non-empty and the words, concatenated in order, are the tokens of [T]
    one for one, each as the triple of its surface form, its reading (its
    surface form when the reading is undefined or empty) and its part of
    speech: the result is the image of a cut of [T] into non-empty
    contiguous runs.  The empty sequence gives the empty word list, and the
    word list is empty only for the empty sequence. *)
Theorem grouping_partitions_input (T : list KuromojiToken) :
  let shown (t : KuromojiToken) : AnalyzedToken :=
    (surface_form t,
     match reading t with
     | Some r => if r =? "" then surface_form t else r
     | None => surface_form t
     end,
     pos t) in
  Forall (fun w : AnalyzedWord => w <> []) (groupTokens T)
  /\ List.concat (groupTokens T) = map shown T
  /\ (exists parts : list (list KuromojiToken),
        groupTokens T = map (map shown) parts
        /\ List.concat parts = T
        /\ Forall (fun run : list KuromojiToken => run <> []) parts)
  /\ groupTokens [] = []
  /\ (groupTokens T = [] <-> T = []).
Proof.
  intros shown.
  assert (Hshown : forall t, newToken t = shown t).
  { intros t. unfold newToken, shown, Js.or_else, Js.truthy.
    destruct (reading t) as [r|]; [|reflexivity].
    destruct (r =? ""); reflexivity. }
  assert (Hmap : forall l, map newToken l = map shown l).
  { intros l. apply map_ext, Hshown. }
  destruct (groupTokens_cut T) as (parts & E & Hc & Hn).
  split; [|split; [|split; [|split; [|split]]]].
  - rewrite E. clear E Hc. induction Hn as [|p parts Hp _ IH]; cbn [map].
    + constructor.
    + constructor; [|exact IH].
      destruct p as [|x p]; [now elim Hp | discriminate].
  - rewrite groupTokens_concat. apply Hmap.
  - exists parts. split; [|split; [exact Hc | exact Hn]].
    rewrite E. apply map_ext, Hmap.
  - reflexivity.
  - intros H0. rewrite H0 in E. destruct parts; [|discriminate].
    now rewrite <- Hc.
  - intros ->. reflexivity.
Qed.

Lemma grouping_partitions_input_witness :
  List.concat
    (groupTokens [Sample.tabe; Sample.ta; Sample.no; Sample.neko; Sample.tachi;
                  Sample.rocq])
    = [("食べ", "タベ", "動詞"); ("た", "タ", "助動詞"); ("の", "ノ", "助詞");
       ("猫", "ネコ", "名詞"); ("たち", "タチ", "名詞"); ("Rocq", "Rocq", "名詞")]
  /\ groupTokens [] = [].
Proof.
  split.
  - apply (grouping_partitions_input
             [Sample.tabe; Sample.ta; Sample.no; Sample.neko; Sample.tachi;
              Sample.rocq]).
  - apply (proj2 (proj2 (proj2 (proj2 (proj2 (grouping_partitions_input []))))));
      reflexivity.
Defined.

(** C6.  For every token of the input, the token at the same place in the
    output of [groupTokens] has the token's surface, and its reading is
    the token's reading when there is one (a non-empty string) and the
    token's surface form when the reading is absent (undefined or empty,
    the two values JavaScript's [||] skips). *)
Theorem reading_falls_back_to_surface
  (T : list KuromojiToken) (i : nat) (t : KuromojiToken)
  (Hi : nth_error T i = Some t) :
  exists a : AnalyzedToken,
    nth_error (List.concat (groupTokens T)) i = Some a
    /\ at0 a = surface_form t
    /\ (forall r, reading t = Some r -> r <> "" -> at1 a = r)
    /\ (reading t = None \/ reading t = Some "" -> at1 a = surface_form t).
Proof.
  exists (newToken t). rewrite groupTokens_concat. repeat split.
  - now apply map_nth_error.
  - intros r Hr Hne. unfold newToken, at1, Js.or_else, Js.truthy. cbn [fst snd].
    rewrite Hr. apply String.eqb_neq in Hne. now rewrite Hne.
  - intros [Hr|Hr]; unfold newToken, at1, Js.or_else; cbn [fst snd];
      now rewrite Hr.
Qed.

Lemma reading_falls_back_to_surface_witness :
  exists a : AnalyzedToken,
    nth_error (List.concat (groupTokens [Sample.neko; Sample.rocq])) 1 = Some a
    /\ at0 a = "Rocq"
    /\ (forall r, reading Sample.rocq = Some r -> r <> "" -> at1 a = r)
    /\ (reading Sample.rocq = None \/ reading Sample.rocq = Some ""
        -> at1 a = "Rocq").
Proof.
  apply (reading_falls_back_to_surface [Sample.neko; Sample.rocq] 1 Sample.rocq).
  reflexivity.
Defined.

(** One more token on an open word: expose the test the loop makes, then
    evaluate the comparisons of tags that are known. *)
Ltac scan_next :=
  rewrite step_open by discriminate; cbn [last app]; unfold continues at 1.
Ltac eval_tags := cbn [String.eqb Ascii.eqb Bool.eqb andb orb].

(** C5.  The five tokens 食べ (verb), た (auxiliary verb), の (particle,
    conjunctive particle), 猫 (noun) and たち (noun, suffix), whatever
    their other features are as long as 猫 is not itself tagged as a
    suffix, are grouped into exactly two words: 食べ, た, の and 猫, たち. *)
Theorem scenario_two_words (t1 t2 t3 t4 t5 : KuromojiToken)
  (S1 : surface_form t1 = "食べ") (P1 : pos t1 = "動詞")
  (S2 : surface_form t2 = "た") (P2 : pos t2 = "助動詞")
  (S3 : surface_form t3 = "の") (P3 : pos t3 = "助詞")
  (D3 : pos_detail_1 t3 = "接続助詞")
  (S4 : surface_form t4 = "猫") (P4 : pos t4 = "名詞")
  (D4 : pos_detail_1 t4 <> "接尾")
  (S5 : surface_form t5 = "たち") (P5 : pos t5 = "名詞")
  (D5 : pos_detail_1 t5 = "接尾") :
  groupTokens [t1; t2; t3; t4; t5]
    = [[newToken t1; newToken t2; newToken t3]; [newToken t4; newToken t5]]
  /\ map (map at0) (groupTokens [t1; t2; t3; t4; t5])
    = [["食べ"; "た"; "の"]; ["猫"; "たち"]].
Proof.
  assert (E : groupTokens [t1; t2; t3; t4; t5]
    = [[newToken t1; newToken t2; newToken t3]; [newToken t4; newToken t5]]).
  { unfold groupTokens. cbn [List.length Nat.eqb fold_left].
    rewrite step_fresh.
    apply String.eqb_neq in D4.
    scan_next. unfold newToken at 1, at2 at 1. cbn [snd].
    rewrite P1, P2. eval_tags.
    scan_next. rewrite P3, D3. eval_tags.
    scan_next. rewrite P4, D4. eval_tags.
    scan_next. rewrite P5, D5. eval_tags.
    reflexivity. }
  split; [exact E|].
  rewrite E. unfold newToken, at0. cbn [map fst].
  now rewrite S1, S2, S3, S4, S5.
Qed.

Lemma scenario_two_words_witness :
  groupTokens [Sample.tabe; Sample.ta; Sample.no; Sample.neko; Sample.tachi]
    = [[("食べ", "タベ", "動詞"); ("た", "タ", "助動詞"); ("の", "ノ", "助詞")];
       [("猫", "ネコ", "名詞"); ("たち", "タチ", "名詞")]]
  /\ map (map at0)
       (groupTokens [Sample.tabe; Sample.ta; Sample.no; Sample.neko; Sample.tachi])
    = [["食べ"; "た"; "の"]; ["猫"; "たち"]].
Proof.
  apply (scenario_two_words
           Sample.tabe Sample.ta Sample.no Sample.neko Sample.tachi);
    try reflexivity.
  discriminate.
Defined.

(** C4.  Once the open word has a token, the next token is appended to it
    exactly when one of the four continuation conditions holds, with
    prevPOS the part of speech of the last token of the open word;
    otherwise the open word is emitted and the token starts a new one.
    This is stated for one step of the scan and for [groupTokens] itself,
    where the open word is the last word of the grouping so far.  A verb
    followed by any number of dependent verbs is a single word. *)
Theorem continuation_rule :
  (forall (wordList : list AnalyzedWord) (currentWord : AnalyzedWord)
          (token : KuromojiToken),
      currentWord <> [] ->
      let prevPOS := at2 (last currentWord noToken) in
      (step (wordList, currentWord) token
         = (wordList, currentWord ++ [newToken token])
       <-> continuation token prevPOS)
      /\ (~ continuation token prevPOS ->
          step (wordList, currentWord) token
            = (wordList ++ [currentWord], [newToken token])))
  /\ (forall (T : list KuromojiToken) (token : KuromojiToken),
      T <> [] ->
      let words := groupTokens T in
      let open := last words [] in
      let prevPOS := at2 (last open noToken) in
      (groupTokens (T ++ [token])
         = removelast words ++ [open ++ [newToken token]]
       <-> continuation token prevPOS)
      /\ (~ continuation token prevPOS ->
          groupTokens (T ++ [token]) = words ++ [[newToken token]]))
  /\ (forall (v : KuromojiToken) (ds : list KuromojiToken),
      pos v = "動詞" ->
      Forall (fun d => pos d = "動詞" /\ pos_detail_1 d = "非自立") ds ->
      groupTokens (v :: ds) = [map newToken (v :: ds)]).
Proof.
  split; [|split].
  - intros wl cw token Hcw prevPOS. subst prevPOS.
    rewrite step_open by exact Hcw. rewrite <- continues_spec.
    destruct (continues token _); split.
    + tauto.
    + intros H. now elim H.
    + split; [|discriminate].
      intros H. injection H as H1 _.
      apply (f_equal (@List.length _)) in H1. rewrite length_app in H1.
      cbn [List.length] in H1. lia.
    + reflexivity.
  - intros T token HT words open prevPOS. subst words open prevPOS.
    rewrite groupTokens_snoc by exact HT. rewrite <- continues_spec.
    destruct (continues token _); split.
    + tauto.
    + intros H. now elim H.
    + split; [|discriminate].
      intros H. apply (f_equal (@List.length _)) in H.
      destruct (scan_open T HT) as (wl & cw & _ & _ & EG).
      rewrite EG, removelast_last, !length_app in H. cbn [List.length] in H. lia.
    + reflexivity.
  - intros v ds Hv Hds. unfold groupTokens. cbn [List.length Nat.eqb fold_left].
    rewrite step_fresh, (scan_verb_chain ds Hds); [reflexivity | discriminate |].
    exact Hv.
Qed.

Lemma continuation_rule_witness :
  step ([], [newToken Sample.tabe]) Sample.ta
    = ([], [newToken Sample.tabe; newToken Sample.ta])
  /\ groupTokens ([Sample.tabe; Sample.ta; Sample.no] ++ [Sample.neko])
    = [[newToken Sample.tabe; newToken Sample.ta; newToken Sample.no];
       [newToken Sample.neko]]
  /\ groupTokens [Sample.tabe; Sample.shimau; Sample.sugiru]
    = [[newToken Sample.tabe; newToken Sample.shimau; newToken Sample.sugiru]].
Proof.
  destruct continuation_rule as (Hstep & Hseq & Hchain).
  split; [|split].
  - apply (proj1 (Hstep [] [newToken Sample.tabe] Sample.ta
                    ltac:(discriminate))).
    left. split; reflexivity.
  - apply (proj2 (Hseq [Sample.tabe; Sample.ta; Sample.no] Sample.neko
                    ltac:(discriminate))).
    unfold continuation. cbn.
    intros [[H _]|[[H _]|[[H _]|[_ H]]]]; discriminate H.
  - apply (Hchain Sample.tabe [Sample.shimau; Sample.sugiru]).
    + reflexivity.
    + repeat constructor.
Defined.

End GroupingClaims.


(** * Properties of the dictionary lookup and of the word panel *)

Section LookupFacts.

Import Jisho WordInfo.

Lemma nth_error_end {A : Type} (l : list A) (x : A) (rest : list A) :
  nth_error (l ++ x :: rest) (List.length l) = Some x.
Proof. induction l as [|a l IH]; [reflexivity | exact IH]. Qed.

Lemma removeAt_end {A : Type} (l : list A) (x : A) (rest : list A) :
  removeAt (List.length l) (l ++ x :: rest) = l ++ rest.
Proof.
  induction l as [|a l IH]; [reflexivity|].
  cbn [List.length app removeAt]. now rewrite IH.
Qed.

(** Selecting a word that has a token puts the panel in the loading view
    and sends one lookup, queued behind those already in flight. *)
Lemma react_select (p : Panel) (w : AnalyzedWord) :
  w <> [] ->
  react p (Select w)
  = mkPanel (mkState None true "") (Some w)
      (inflight p ++ [at0 (nth 0 w noToken)]).
Proof. destruct w as [|t w]; [congruence | reflexivity]. Qed.

(** A lookup that is in flight settles: its result is written into the
    view, whatever the selection is by then. *)
Lemma react_settle (p : Panel) (i : nat) (fetched : Fetched) (base : string) :
  nth_error (inflight p) i = Some base ->
  react p (Settle i fetched)
  = mkPanel (fetchMeaning_settle (getWordMeaningWithJisho fetched) (view p))
      (selectedWord p) (removeAt i (inflight p)).
Proof. intros H. cbn [react]. now rewrite H. Qed.

(** The lookup returns exactly when the call did not fail, and then with
    the first of the entries, if any. *)
Lemma lookup_returns (fetched : Fetched) :
  ~ failed fetched ->
  getWordMeaningWithJisho fetched = Returns (hd_error (entries fetched)).
Proof.
  destruct fetched as [|[o st j]]; cbn [failed ok json]; intros H.
  - now elim H.
  - destruct o; [|elim H; now left].
    destruct j as [[[[|e l]|]]|]; [reflexivity .. | elim H; now right].
Qed.

Lemma lookup_throws (fetched : Fetched) :
  failed fetched -> exists e, getWordMeaningWithJisho fetched = Throws e.
Proof.
  destruct fetched as [|[o st j]]; cbn [failed ok json].
  - intros _. now exists FetchFailed.
  - intros [H|H]; subst; cbn.
    + now exists (BadStatus st).
    + destruct o; [now exists BodyUnreadable | now exists (BadStatus st)].
Qed.

Lemma failed_dec (fetched : Fetched) : failed fetched \/ ~ failed fetched.
Proof.
  destruct fetched as [|[[] st [b|]]]; cbn [failed ok json]; auto.
  right. intros [H|H]; discriminate.
Qed.

Lemma nth_error_end2 {A : Type} (l : list A) (x y : A) (rest : list A) :
  nth_error (l ++ x :: y :: rest) (S (List.length l)) = Some y.
Proof. induction l as [|a l IH]; [reflexivity | exact IH]. Qed.

Lemma removeAt_end2 {A : Type} (l : list A) (x y : A) (rest : list A) :
  removeAt (S (List.length l)) (l ++ x :: y :: rest) = l ++ x :: rest.
Proof.
  induction l as [|a l IH]; [reflexivity|].
  change (a :: removeAt (S (List.length l)) (l ++ x :: y :: rest)
          = a :: l ++ x :: rest).
  now rewrite IH.
Qed.

(** Two selections in a row: the view is loading and both lookups are in
    flight, the first one ahead of the second. *)
Lemma react_select_twice (p : Panel) (A B : AnalyzedWord) :
  A <> [] -> B <> [] ->
  react (react p (Select A)) (Select B)
  = mkPanel (mkState None true "") (Some B)
      (inflight p ++ [at0 (nth 0 A noToken); at0 (nth 0 B noToken)]).
Proof.
  intros HA HB. rewrite (react_select p A HA), react_select by exact HB.
  cbn [inflight]. now rewrite <- app_assoc.
Qed.

End LookupFacts.

Section LookupClaims.

Import Jisho WordInfo.

(** C8.  A word is selected and its lookup settles.  If the call
    succeeded with at least one entry, the panel holds the first entry
    returned; if it succeeded with no entry, the panel holds no entry and
    no error; and the panel holds an error exactly when the call failed
    (the fetch is rejected or its body cannot be read, or the status is
    not ok). *)
Theorem lookup_outcome (p : Panel) (w : AnalyzedWord) (fetched : Fetched)
  (Hw : w <> []) :
  let p' := run p [Select w; Settle (List.length (inflight p)) fetched] in
  (forall first rest,
      ~ failed fetched -> entries fetched = first :: rest ->
      getWordMeaningWithJisho fetched = Returns (Some first)
      /\ view p' = mkState (Some first) false "")
  /\ (~ failed fetched -> entries fetched = [] ->
      getWordMeaningWithJisho fetched = Returns None
      /\ view p' = mkState None false "")
  /\ (failed fetched -> view p' = mkState None false fetchFailedMessage)
  /\ (error (view p') <> "" <-> failed fetched).
Proof.
  intros p'. subst p'. unfold run. cbn [fold_left].
  rewrite (react_select p w Hw).
  rewrite (react_settle _ _ _ (at0 (nth 0 w noToken)))
    by (cbn [inflight]; apply nth_error_end).
  cbn [view].
  split; [|split; [|split; [|split]]].
  - intros first rest Hok He.
    rewrite (lookup_returns fetched Hok), He. split; reflexivity.
  - intros Hok He.
    rewrite (lookup_returns fetched Hok), He. split; reflexivity.
  - intros Hf. destruct (lookup_throws fetched Hf) as [e ->]. reflexivity.
  - intros He. destruct (failed_dec fetched) as [Hf|Hf]; [exact Hf|].
    rewrite (lookup_returns fetched Hf) in He. now elim He.
  - intros Hf. destruct (lookup_throws fetched Hf) as [e ->]. discriminate.
Qed.

Lemma lookup_outcome_witness :
  view (run start [Select Sample.nekoWord;
                   Settle 0 (Sample.answer [Sample.nekoEntry; Sample.inuEntry])])
    = mkState (Some Sample.nekoEntry) false ""
  /\ view (run start [Select Sample.nekoWord; Settle 0 (Sample.answer [])])
    = mkState None false ""
  /\ view (run start [Select Sample.nekoWord;
                      Settle 0 (Resolved (mkResponse false 500 None))])
    = mkState None false fetchFailedMessage.
Proof.
  split; [|split].
  - apply (proj1 (lookup_outcome start Sample.nekoWord
                    (Sample.answer [Sample.nekoEntry; Sample.inuEntry])
                    ltac:(discriminate))
             Sample.nekoEntry [Sample.inuEntry]).
    + intros [H|H]; discriminate H.
    + reflexivity.
  - apply (proj1 (proj2 (lookup_outcome start Sample.nekoWord
                           (Sample.answer []) ltac:(discriminate)))).
    + intros [H|H]; discriminate H.
    + reflexivity.
  - apply (proj1 (proj2 (proj2 (lookup_outcome start Sample.nekoWord
                                  (Resolved (mkResponse false 500 None))
                                  ltac:(discriminate))))).
    left. reflexivity.
Defined.

(** C1, counterexample.  猫 is selected, then 犬; the lookup for 犬 settles
    first and the panel shows the entry for 犬; the lookup for 猫 settles
    afterwards and its entry replaces the one for 犬, while 犬 is still the
    selected word. *)
Lemma stale_lookup_overwrites :
  let settled_B :=
    run start [Select Sample.nekoWord; Select Sample.inuWord;
               Settle 1 (Sample.answer [Sample.inuEntry])] in
  let final := react settled_B (Settle 0 (Sample.answer [Sample.nekoEntry])) in
  selectedWord settled_B = Some Sample.inuWord
  /\ view settled_B = mkState (Some Sample.inuEntry) false ""
  /\ selectedWord final = Some Sample.inuWord
  /\ view final = mkState (Some Sample.nekoEntry) false ""
  /\ view final <> mkState (Some Sample.inuEntry) false "".
Proof. cbv zeta. repeat split. discriminate. Qed.

(** C1, amended.  Word A is selected, then word B, and both lookups
    settle.  Each outcome is applied to the panel when it arrives, in the
    order of arrival, with no check that its word is still the selected
    one: a lookup that succeeds replaces the entry shown and leaves the
    error message, a lookup that fails sets the error message and leaves
    the entry shown.  So when both succeed the panel ends with the entry
    of the lookup that settled last: B's when A's settled first, and A's
    (under selected word B) when B's settled first, having shown B's in
    between.  When one of the two fails, the panel ends, in either order,
    with the entry of the one that succeeded together with the error
    message; when both fail, with no entry and the error message. *)
Theorem last_settled_lookup_is_shown
  (p : Panel) (A B : AnalyzedWord) (fa fb : Fetched)
  (HA : A <> []) (HB : B <> []) :
  let n := List.length (inflight p) in
  let both := run p [Select A; Select B] in
  let b_then_a := run both [Settle (S n) fb; Settle n fa] in
  let a_then_b := run both [Settle n fa; Settle n fb] in
  selectedWord b_then_a = Some B
  /\ selectedWord a_then_b = Some B
  /\ view both = mkState None true ""
  /\ view b_then_a
     = fetchMeaning_settle (getWordMeaningWithJisho fa)
         (fetchMeaning_settle (getWordMeaningWithJisho fb) (view both))
  /\ view a_then_b
     = fetchMeaning_settle (getWordMeaningWithJisho fb)
         (fetchMeaning_settle (getWordMeaningWithJisho fa) (view both))
  /\ (~ failed fa -> ~ failed fb ->
      view (run both [Settle (S n) fb])
        = mkState (hd_error (entries fb)) false ""
      /\ view b_then_a = mkState (hd_error (entries fa)) false ""
      /\ view a_then_b = mkState (hd_error (entries fb)) false "")
  /\ (failed fa -> ~ failed fb ->
      view b_then_a
        = mkState (hd_error (entries fb)) false fetchFailedMessage
      /\ view a_then_b
        = mkState (hd_error (entries fb)) false fetchFailedMessage)
  /\ (~ failed fa -> failed fb ->
      view b_then_a
        = mkState (hd_error (entries fa)) false fetchFailedMessage
      /\ view a_then_b
        = mkState (hd_error (entries fa)) false fetchFailedMessage)
  /\ (failed fa -> failed fb ->
      view b_then_a = mkState None false fetchFailedMessage
      /\ view a_then_b = mkState None false fetchFailedMessage).
Proof.
  intros n both b_then_a a_then_b. subst n.
  assert (Eboth : both = mkPanel (mkState None true "") (Some B)
            (inflight p ++ [at0 (nth 0 A noToken); at0 (nth 0 B noToken)])).
  { apply react_select_twice; assumption. }
  assert (Ev : view both = mkState None true "") by now rewrite Eboth.
  assert (Eb : react both (Settle (S (List.length (inflight p))) fb)
            = mkPanel (fetchMeaning_settle (getWordMeaningWithJisho fb)
                         (view both))
                (Some B) (inflight p ++ [at0 (nth 0 A noToken)])).
  { rewrite (react_settle both (S (List.length (inflight p))) fb
               (at0 (nth 0 B noToken)));
      rewrite Eboth; cbn [inflight selectedWord view].
    - now rewrite removeAt_end2.
    - apply nth_error_end2. }
  assert (Ea : react both (Settle (List.length (inflight p)) fa)
            = mkPanel (fetchMeaning_settle (getWordMeaningWithJisho fa)
                         (view both))
                (Some B) (inflight p ++ [at0 (nth 0 B noToken)])).
  { rewrite (react_settle both (List.length (inflight p)) fa
               (at0 (nth 0 A noToken)));
      rewrite Eboth; cbn [inflight selectedWord view].
    - now rewrite removeAt_end.
    - apply nth_error_end. }
  assert (Eba : b_then_a
            = mkPanel (fetchMeaning_settle (getWordMeaningWithJisho fa)
                         (fetchMeaning_settle (getWordMeaningWithJisho fb)
                            (view both)))
                (Some B) (inflight p)).
  { subst b_then_a. unfold run. cbn [fold_left]. rewrite Eb.
    rewrite (react_settle _ (List.length (inflight p)) fa
               (at0 (nth 0 A noToken)));
      cbn [inflight selectedWord view].
    - now rewrite removeAt_end, app_nil_r.
    - apply nth_error_end. }
  assert (Eab : a_then_b
            = mkPanel (fetchMeaning_settle (getWordMeaningWithJisho fb)
                         (fetchMeaning_settle (getWordMeaningWithJisho fa)
                            (view both)))
                (Some B) (inflight p)).
  { subst a_then_b. unfold run. cbn [fold_left]. rewrite Ea.
    rewrite (react_settle _ (List.length (inflight p)) fb
               (at0 (nth 0 B noToken)));
      cbn [inflight selectedWord view].
    - now rewrite removeAt_end, app_nil_r.
    - apply nth_error_end. }
  assert (Ebv : view (run both [Settle (S (List.length (inflight p))) fb])
            = fetchMeaning_settle (getWordMeaningWithJisho fb) (view both)).
  { unfold run. cbn [fold_left]. now rewrite Eb. }
  rewrite Eba, Eab, Ebv. cbn [selectedWord view]. rewrite Ev.
  split; [reflexivity|]. split; [reflexivity|]. split; [reflexivity|].
  split; [reflexivity|]. split; [reflexivity|].
  split; [|split; [|split]].
  - intros Sa Sb.
    rewrite (lookup_returns fa Sa), (lookup_returns fb Sb).
    split; [reflexivity|]. split; reflexivity.
  - intros Fa Sb. destruct (lookup_throws fa Fa) as [e Ee].
    rewrite Ee, (lookup_returns fb Sb). split; reflexivity.
  - intros Sa Fb. destruct (lookup_throws fb Fb) as [e Ee].
    rewrite Ee, (lookup_returns fa Sa). split; reflexivity.
  - intros Fa Fb. destruct (lookup_throws fa Fa) as [ea Ea'].
    destruct (lookup_throws fb Fb) as [eb Eb'].
    rewrite Ea', Eb'. split; reflexivity.
Qed.

Lemma last_settled_lookup_is_shown_witness :
  view (run (run start [Select Sample.nekoWord; Select Sample.inuWord])
            [Settle 1 (Sample.answer [Sample.inuEntry]);
             Settle 0 (Sample.answer [Sample.nekoEntry])])
    = mkState (Some Sample.nekoEntry) false ""
  /\ view (run (run start [Select Sample.nekoWord; Select Sample.inuWord])
              [Settle 0 (Sample.answer [Sample.nekoEntry]);
               Settle 0 (Sample.answer [Sample.inuEntry])])
    = mkState (Some Sample.inuEntry) false ""
  /\ view (run (run start [Select Sample.nekoWord; Select Sample.inuWord])
              [Settle 0 Rejected;
               Settle 0 (Sample.answer [Sample.inuEntry])])
    = mkState (Some Sample.inuEntry) false fetchFailedMessage.
Proof.
  pose proof (last_settled_lookup_is_shown start Sample.nekoWord Sample.inuWord
                (Sample.answer [Sample.nekoEntry])
                (Sample.answer [Sample.inuEntry])
                ltac:(discriminate) ltac:(discriminate)) as H.
  pose proof (last_settled_lookup_is_shown start Sample.nekoWord Sample.inuWord
                Rejected (Sample.answer [Sample.inuEntry])
                ltac:(discriminate) ltac:(discriminate)) as H'.
  cbv zeta in H, H'.
  destruct H as (_ & _ & _ & _ & _ & H & _).
  destruct H' as (_ & _ & _ & _ & _ & _ & H' & _).
  destruct H as (_ & Hba & Hab).
  - intros [H|H]; discriminate H.
  - intros [H|H]; discriminate H.
  - destruct H' as (_ & Hfail).
    + exact I.
    + intros [H|H]; discriminate H.
    + split; [exact Hba|]. split; [exact Hab | exact Hfail].
Defined.

End LookupClaims.

(** * Properties of the page: selection and the analysis handler *)

Section PageFacts.

Import App.

(** The two guards of [handleAnalyse]. *)
Lemma handleAnalyse_blank (tk : option KuromojiTokenizer) (s : State) :
  Js.trim (inputText s) = "" ->
  handleAnalyse tk s = (setError (Some blankMessage) s, []).
Proof. intros H. unfold handleAnalyse, Js.truthy. now rewrite H. Qed.

Lemma handleAnalyse_notReady (tk : option KuromojiTokenizer) (s : State) :
  Js.trim (inputText s) <> "" -> ready tk s = false ->
  handleAnalyse tk s = (setError (Some notReadyMessage) s, []).
Proof.
  intros Hb Hr. unfold handleAnalyse, Js.truthy.
  apply String.eqb_neq in Hb. rewrite Hb. cbn [negb].
  unfold ready in Hr.
  destruct (tokenizerLoading s); [reflexivity|].
  destruct (isNull tk); [reflexivity | discriminate].
Qed.

Lemma blank_dec (s : string) : s = "" \/ s <> "".
Proof. destruct s; [now left | right; discriminate]. Qed.

(** [handleAnalyse] neither reads the error cell nor leaves it as it was,
    so a rejected request changes nothing a later request depends on. *)
Lemma handleAnalyse_forgets_error (tk : option KuromojiTokenizer)
  (e : option string) (s : State) :
  handleAnalyse tk (setError e s) = handleAnalyse tk s.
Proof.
  unfold handleAnalyse. cbn [setError inputText tokenizerLoading].
  destruct (negb _); [reflexivity|].
  destruct (tokenizerLoading s || isNull tk); reflexivity.
Qed.

End PageFacts.

Section PageClaims.

Import App AnalysisDisplay.

(** C7, counterexample.  The tokenizer failed to load, so the tagger is
    not ready, and the text box is empty: the request is rejected with the
    message for blank input, not with the one for a tagger that is not
    ready. *)
Lemma blank_input_masks_not_ready :
  ready None Sample.loadFailedBlank = false
  /\ handleAnalyse None Sample.loadFailedBlank
     = (setError (Some blankMessage) Sample.loadFailedBlank, [])
  /\ error (fst (handleAnalyse None Sample.loadFailedBlank))
     <> Some notReadyMessage.
Proof. repeat split. discriminate. Qed.

(** C7, amended.  When analysis is requested before the tagger is ready
    and the input is not blank, the request is rejected with the
    not-ready message; when the input is blank it is rejected with the
    blank-input message instead.  Either way [tokenize] is not called,
    nothing but the error cell changes, and nothing of the request is
    kept: a later request behaves as if this one had not been made. *)
Theorem not_ready_fails_fast (tk : option KuromojiTokenizer) (s : State)
  (Hr : ready tk s = false) :
  (Js.trim (inputText s) <> "" ->
     handleAnalyse tk s = (setError (Some notReadyMessage) s, []))
  /\ (Js.trim (inputText s) = "" ->
     handleAnalyse tk s = (setError (Some blankMessage) s, []))
  /\ snd (handleAnalyse tk s) = []
  /\ (exists message, fst (handleAnalyse tk s) = setError (Some message) s)
  /\ (forall tk', handleAnalyse tk' (fst (handleAnalyse tk s))
                 = handleAnalyse tk' s).
Proof.
  assert (H1 := fun Hb => handleAnalyse_notReady tk s Hb Hr).
  assert (H2 := handleAnalyse_blank tk s).
  split; [exact H1|]. split; [exact H2|].
  destruct (blank_dec (Js.trim (inputText s))) as [Hb|Hb].
  - rewrite (H2 Hb). cbn [fst snd].
    split; [reflexivity|]. split; [now exists blankMessage|].
    intros tk'. apply handleAnalyse_forgets_error.
  - rewrite (H1 Hb). cbn [fst snd].
    split; [reflexivity|]. split; [now exists notReadyMessage|].
    intros tk'. apply handleAnalyse_forgets_error.
Qed.

Lemma not_ready_fails_fast_witness :
  handleAnalyse None Sample.loadFailedTyped
  = (setError (Some notReadyMessage) Sample.loadFailedTyped, []).
Proof.
  apply (proj1 (not_ready_fails_fast None Sample.loadFailedTyped eq_refl)).
  vm_compute. discriminate.
Defined.

(** C10.  When [handleAnalyse] rejects a request, for blank input or for
    a tagger that is not ready, it sets the error message and nothing
    else: the displayed analysis, the selected word and every other cell
    are as they were, and [tokenize] was not called. *)
Theorem rejected_request_keeps_state (tk : option KuromojiTokenizer)
  (s : State)
  (Hrej : Js.trim (inputText s) = "" \/ ready tk s = false) :
  let s' := fst (handleAnalyse tk s) in
  analysis s' = analysis s
  /\ selectedWord s' = selectedWord s
  /\ inputText s' = inputText s
  /\ isLoading s' = isLoading s
  /\ tokenizerLoading s' = tokenizerLoading s
  /\ (error s' = Some blankMessage \/ error s' = Some notReadyMessage)
  /\ (exists message, handleAnalyse tk s = (setError (Some message) s, [])).
Proof.
  cbv zeta.
  assert (E : handleAnalyse tk s = (setError (Some blankMessage) s, [])
              \/ handleAnalyse tk s = (setError (Some notReadyMessage) s, [])).
  { destruct (blank_dec (Js.trim (inputText s))) as [Hb|Hb].
    - left. now apply handleAnalyse_blank.
    - destruct Hrej as [Hrej|Hrej]; [congruence|].
      right. now apply handleAnalyse_notReady. }
  destruct E as [E|E]; rewrite E; cbn [fst setError analysis selectedWord
    inputText isLoading tokenizerLoading error];
    (do 5 (split; [reflexivity|])); (split; [auto | eauto]).
Qed.

Lemma rejected_request_keeps_state_witness :
  analysis (fst (handleAnalyse (Some Sample.tagger) Sample.shownThenEmptied))
    = Some (mkAnalysis [Sample.nekoWord; Sample.inuWord])
  /\ selectedWord
       (fst (handleAnalyse (Some Sample.tagger) Sample.shownThenEmptied))
     = Some Sample.nekoWord.
Proof.
  pose proof (rejected_request_keeps_state (Some Sample.tagger)
                Sample.shownThenEmptied (or_introl eq_refl)) as H.
  cbv zeta in H. destruct H as (Ha & Hs & _).
  split; [exact Ha | exact Hs].
Defined.

End PageClaims.

(** * More on [groupTokens]: locality *)

Section GroupingLocality.

Import Grouping Seam.

Lemma last_app_nonempty {A : Type} (l1 l2 : list A) (d : A) :
  l2 <> [] -> last (l1 ++ l2) d = last l2 d.
Proof.
  intros H. destruct (exists_last H) as (l & x & ->).
  now rewrite app_assoc, !last_last.
Qed.

Lemma step_keeps_open (st : Scan) (t : KuromojiToken) :
  snd (step st t) <> [].
Proof.
  destruct st as [wl cw]. unfold step.
  destruct (Nat.eqb _ _); [|destruct (continues _ _)]; cbn [snd];
    try discriminate; destruct cw; discriminate.
Qed.

(** One step commutes with placing the scan after a context. *)
Lemma step_glue (emitted : list AnalyzedWord) (opened : AnalyzedWord)
  (wl : list AnalyzedWord) (cw : AnalyzedWord) (t : KuromojiToken) :
  cw <> [] ->
  step (glue emitted opened (wl, cw)) t = glue emitted opened (step (wl, cw) t).
Proof.
  intros Hcw. rewrite (step_open wl cw t Hcw).
  unfold glue at 1. cbn [fst snd]. destruct wl as [|w ws].
  - rewrite step_open by (destruct opened; cbn; [exact Hcw | discriminate]).
    rewrite last_app_nonempty by exact Hcw.
    destruct (continues t _); unfold glue; cbn [fst snd app].
    + now rewrite app_assoc.
    + reflexivity.
  - rewrite step_open by exact Hcw.
    destruct (continues t _); unfold glue; cbn [fst snd app].
    + reflexivity.
    + now rewrite <- app_assoc.
Qed.

Lemma scan_glue (T : list KuromojiToken) :
  forall (emitted : list AnalyzedWord) (opened : AnalyzedWord) (st : Scan),
    snd st <> [] ->
    fold_left step T (glue emitted opened st)
    = glue emitted opened (fold_left step T st).
Proof.
  induction T as [|t T IH]; intros emitted opened [wl cw] Hcw; [reflexivity|].
  cbn [fold_left]. cbn [snd] in Hcw. rewrite step_glue by exact Hcw.
  apply IH. apply step_keeps_open.
Qed.

Lemma scan_keeps_open (T : list KuromojiToken) (st : Scan) :
  snd st <> [] -> snd (fold_left step T st) <> [].
Proof.
  revert st. induction T as [|t T IH]; intros st H; [exact H|].
  cbn [fold_left]. apply IH, step_keeps_open.
Qed.

Lemma finish_glue (emitted : list AnalyzedWord) (opened : AnalyzedWord)
  (st : Scan) :
  snd st <> [] ->
  finish (glue emitted opened st)
  = emitted ++ (opened ++ hd [] (finish st)) :: tl (finish st).
Proof.
  destruct st as [wl cw]. cbn [snd]. intros Hcw.
  destruct cw as [|c cw]; [congruence|].
  unfold glue, finish. cbn [fst snd]. destruct wl as [|w ws].
  - cbn [List.length Nat.ltb Nat.leb hd tl app].
    destruct (opened ++ c :: cw) eqn:E.
    + destruct opened; discriminate.
    + reflexivity.
  - cbn [List.length Nat.ltb Nat.leb hd tl app]. now rewrite <- app_assoc.
Qed.

(** The token tested against is always the one read just before. *)
Lemma open_word_ends_with_previous (T : list KuromojiToken)
  (d : KuromojiToken) :
  T <> [] ->
  last (last (groupTokens T) []) noToken = newToken (last T d).
Proof.
  intros HT. destruct (exists_last HT) as (T' & t & ->).
  rewrite last_last. destruct T' as [|t' T'].
  - reflexivity.
  - rewrite groupTokens_snoc by discriminate.
    destruct (continues t _); now rewrite !last_last.
Qed.

Lemma agree_newToken (t u : KuromojiToken) :
  agree t u -> newToken t = newToken u.
Proof. intros (Hs & Hr & Hp & _). unfold newToken. now rewrite Hs, Hr, Hp. Qed.

Lemma agree_continues (t u : KuromojiToken) (prev : string) :
  agree t u -> continues t prev = continues u prev.
Proof. intros (_ & _ & Hp & Hd). unfold continues. now rewrite Hp, Hd. Qed.

Lemma agree_scan (T U : list KuromojiToken) :
  Forall2 agree T U ->
  forall st, fold_left step T st = fold_left step U st.
Proof.
  induction 1 as [|t u T U Htu _ IH]; intros st; [reflexivity|].
  cbn [fold_left]. rewrite <- IH. f_equal.
  destruct st as [wl cw]. unfold step.
  now rewrite (agree_newToken t u Htu), (agree_continues t u _ Htu).
Qed.

End GroupingLocality.

Section GroupingLocalityResults.

Import Grouping Seam.

(** X1.  The part of speech the continuation test reads is that of the
    token read just before: after any non-empty input the last token of
    the last word is the last token of the input. *)
Theorem previous_token_is_tested (T : list KuromojiToken) (d : KuromojiToken)
  (HT : T <> []) :
  last (last (groupTokens T) []) noToken = newToken (last T d)
  /\ at2 (last (last (groupTokens T) []) noToken) = pos (last T d).
Proof.
  rewrite (open_word_ends_with_previous T d HT). split; reflexivity.
Qed.

Lemma previous_token_is_tested_witness :
  at2 (last (last (groupTokens [Sample.tabe; Sample.ta; Sample.no]) []) noToken)
  = "助詞".
Proof.
  apply (previous_token_is_tested [Sample.tabe; Sample.ta; Sample.no]
           Sample.tabe).
  discriminate.
Defined.

(** X2.  Grouping is local.  A sequence cut in two non-empty pieces is
    grouped by grouping each piece: if the first token of the second piece
    does not continue the last token of the first piece, the two word
    lists are appended; if it does, they are appended with the last word
    of the first list and the first word of the second merged. *)
Theorem grouping_composes (T1 T2 : list KuromojiToken) (t : KuromojiToken)
  (HT : T1 <> []) :
  groupTokens (T1 ++ t :: T2)
  = if continues t (pos (last T1 t))
    then removelast (groupTokens T1)
           ++ (last (groupTokens T1) [] ++ hd [] (groupTokens (t :: T2)))
              :: tl (groupTokens (t :: T2))
    else groupTokens T1 ++ groupTokens (t :: T2).
Proof.
  destruct (scan_open T1 HT) as (wl & cw & E & Hcw & EG).
  assert (Hprev : at2 (last cw noToken) = pos (last T1 t)).
  { pose proof (open_word_ends_with_previous T1 t HT) as H.
    rewrite EG, last_last in H. now rewrite H. }
  assert (E2 : groupTokens (t :: T2)
               = finish (fold_left step T2 ([], [newToken t]))).
  { reflexivity. }
  assert (Hopen : snd (fold_left step T2 ([], [newToken t])) <> []).
  { apply scan_keeps_open. discriminate. }
  unfold groupTokens at 1.
  destruct (T1 ++ t :: T2) as [|x l] eqn:EA.
  { destruct T1; discriminate. }
  cbn [List.length Nat.eqb]. rewrite <- EA, fold_left_app, E.
  cbn [fold_left]. rewrite step_open by exact Hcw. rewrite Hprev.
  rewrite EG, removelast_last, last_last, E2.
  destruct (continues t _).
  - change (wl, cw ++ [newToken t]) with (glue wl cw ([], [newToken t])).
    rewrite scan_glue by discriminate.
    now rewrite finish_glue.
  - replace (wl ++ [cw], [newToken t])
      with (glue (wl ++ [cw]) [] ([], [newToken t])) by reflexivity.
    rewrite scan_glue by discriminate.
    rewrite finish_glue by exact Hopen. cbn [app].
    destruct (finish _) as [|w ws] eqn:EF; [|reflexivity].
    exfalso. destruct (fold_left step T2 ([], [newToken t])) as [wl2 cw2].
    cbn [snd] in Hopen. unfold finish in EF.
    destruct cw2; [congruence|]. cbn in EF. destruct wl2; discriminate.
Qed.

Lemma grouping_composes_witness :
  groupTokens ([Sample.tabe; Sample.ta] ++ Sample.no :: [Sample.neko; Sample.tachi])
  = [[newToken Sample.tabe; newToken Sample.ta; newToken Sample.no];
     [newToken Sample.neko; newToken Sample.tachi]].
Proof.
  exact (grouping_composes [Sample.tabe; Sample.ta] [Sample.neko; Sample.tachi]
           Sample.no ltac:(discriminate)).
Defined.

(** X3.  A non-empty input gives at least one word and at most as many
    words as tokens, and the words hold as many tokens as the input. *)
Theorem word_count_bounds (T : list KuromojiToken) :
  List.length (groupTokens T) <= List.length T
  /\ List.length (List.concat (groupTokens T)) = List.length T
  /\ (T <> [] -> 1 <= List.length (groupTokens T)).
Proof.
  destruct (groupTokens_cut T) as (parts & E & Hc & Hn).
  split; [|split].
  - rewrite E, length_map, <- Hc. clear E Hc.
    induction Hn as [|p parts Hp _ IH]; [apply Nat.le_refl|].
    cbn [List.concat List.length]. rewrite length_app.
    destruct p; [now elim Hp | cbn [List.length]; lia].
  - rewrite groupTokens_concat. apply length_map.
  - intros HT. rewrite E, length_map.
    destruct parts; [|cbn [List.length]; lia].
    cbn in Hc. congruence.
Qed.

Lemma word_count_bounds_witness :
  1 <= List.length (groupTokens [Sample.neko; Sample.tachi]).
Proof.
  apply (word_count_bounds [Sample.neko; Sample.tachi]). discriminate.
Defined.

(** X4.  The grouping reads four fields of a token only: surface form,
    reading, part of speech and first detail.  Two inputs that agree on
    these, token by token, are grouped alike. *)
Theorem grouping_reads_four_fields (T U : list KuromojiToken)
  (H : Forall2 agree T U) :
  groupTokens T = groupTokens U.
Proof.
  unfold groupTokens. rewrite (Forall2_length H), (agree_scan T U H).
  reflexivity.
Qed.

Lemma grouping_reads_four_fields_witness :
  groupTokens [Sample.neko; Sample.tachi]
  = groupTokens
      [mkToken "猫" "名詞" "一般" "x" "y" "z" "w" "ネコ科" (Some "ネコ") None;
       Sample.tachi].
Proof.
  apply grouping_reads_four_fields.
  repeat constructor.
Defined.

End GroupingLocalityResults.

(** * The display of an analysis *)

Section DisplayFacts.

Import Grouping JsExtra WordSpans.

Lemma groupTokens_nonEmpty (T : list KuromojiToken) :
  Forall nonEmpty (groupTokens T).
Proof.
  destruct (groupTokens_cut T) as (parts & E & _ & Hn). rewrite E. clear E.
  induction Hn as [|p parts Hp _ IH]; cbn [map]; constructor; auto.
  destruct p; [now elim Hp | discriminate].
Qed.

Lemma digits_dashFree (d : Decimal.uint) :
  dashFree (DecimalString.NilEmpty.string_of_uint d).
Proof.
  induction d; cbn [DecimalString.NilEmpty.string_of_uint dashFree];
    try exact I; (split; [discriminate | assumption]).
Qed.

Lemma numberToString_inj (n m : nat) :
  numberToString n = numberToString m -> n = m.
Proof.
  unfold numberToString. intros H.
  apply (f_equal DecimalString.NilEmpty.uint_of_string) in H.
  rewrite !DecimalString.NilEmpty.usu in H. injection H as H.
  apply (f_equal Nat.of_uint) in H.
  now rewrite !DecimalNat.Unsigned.of_to in H.
Qed.

(** A hyphen-free prefix is determined by the string it starts. *)
Lemma dash_prefix_unique (s1 s2 a b : string) :
  dashFree s1 -> dashFree s2 ->
  (s1 ++ String "-" a)%string = (s2 ++ String "-" b)%string -> s1 = s2.
Proof.
  revert s2. induction s1 as [|c s1 IH]; intros [|c2 s2] H1 H2 E; cbn in *.
  - reflexivity.
  - injection E as E _. destruct H2 as [H2 _]. now elim H2.
  - injection E as E _. destruct H1 as [H1 _]. now elim H1.
  - injection E as Ec E. subst c2. f_equal.
    apply IH; [apply H1 | apply H2 | exact E].
Qed.

Lemma key_index_unique (n m : nat) (a b : string) :
  (numberToString n ++ "-" ++ a)%string = (numberToString m ++ "-" ++ b)%string ->
  n = m.
Proof.
  intros E. apply numberToString_inj.
  apply (dash_prefix_unique _ _ a b); [apply digits_dashFree .. | exact E].
Qed.

(** Rendering a list of words from a given index on: it succeeds exactly
    when no word is empty, and then gives one span per word. *)
Lemma spans_of_words (sel : option AnalyzedWord) (ws : list AnalyzedWord) :
  forall index,
    Forall nonEmpty ws ->
    exists spans,
      mapIndexed (span sel) index ws = Some spans
      /\ map text spans = map surface ws
      /\ map ruby spans = map (fun w => Js.join "" (map at1 w)) ws
      /\ map selected spans = map (AnalysisDisplay.isSelected sel) ws
      /\ map color spans = map (fun w => colorClass (at2 (hd noToken w))) ws
      /\ Forall (fun sp => exists j a, index <= j
                   /\ key sp = (numberToString j ++ "-" ++ a)%string) spans
      /\ NoDup (map key spans).
Proof.
  induction ws as [|w ws IH]; intros index Hn.
  - exists []. repeat split; constructor.
  - inversion Hn as [|? ? Hw Hws]; subst.
    destruct (IH (S index) Hws) as (spans & E & Ht & Hr & Hs & Hc & Hk & Hd).
    destruct w as [|first w]; [now elim Hw|].
    cbn [mapIndexed span]. rewrite E.
    eexists. split; [reflexivity|].
    cbn [map text ruby selected color key hd].
    rewrite Ht, Hr, Hs, Hc.
    repeat split.
    + constructor.
      * exists index. eexists. split; [apply Nat.le_refl | reflexivity].
      * eapply Forall_impl; [|exact Hk].
        intros sp (j & a & Hj & Ej). exists j, a. split; [lia | exact Ej].
    + constructor; [|exact Hd].
      intros Hin. apply in_map_iff in Hin. destruct Hin as (sp & Ek & Hsp).
      rewrite Forall_forall in Hk. destruct (Hk sp Hsp) as (j & a & Hj & Ej).
      rewrite Ej in Ek. apply key_index_unique in Ek. lia.
Qed.

Lemma spans_need_tokens (sel : option AnalyzedWord) (ws : list AnalyzedWord) :
  forall index,
    mapIndexed (span sel) index ws <> None -> Forall nonEmpty ws.
Proof.
  induction ws as [|w ws IH]; intros index H; [constructor|].
  cbn [mapIndexed] in H. destruct w as [|first w].
  - now elim H.
  - constructor; [discriminate|].
    apply (IH (S index)). intros E. apply H. cbn [span]. now rewrite E.
Qed.

Lemma own_in (table : list (string * string)) (k v : string) :
  own table k = Some v -> In (k, v) table.
Proof.
  induction table as [|[k' v'] table IH]; cbn [own]; [discriminate|].
  destruct (k =? k') eqn:E.
  - intros H. injection H as ->. apply String.eqb_eq in E. subst. now left.
  - intros H. right. auto.
Qed.

End DisplayFacts.

Section DisplayResults.

Import Grouping JsExtra WordSpans.



(** X6.  Whatever the tokens, the display of their grouping does not
    throw; it shows one span per word, and the texts of the spans, joined,
    are the surfaces of the tokens, joined. *)
Theorem display_of_grouping (T : list KuromojiToken)
  (sel : option AnalyzedWord) :
  exists spans,
    render (Some (mkAnalysis (groupTokens T))) sel = Some spans
    /\ List.length spans = List.length (groupTokens T)
    /\ Js.join "" (map text spans) = Js.join "" (map surface_form T)
    /\ Js.join "" (map ruby spans)
       = Js.join "" (map (fun t => Js.or_else (reading t) (surface_form t)) T).
Proof.
  destruct (spans_of_words sel (groupTokens T) 0 (groupTokens_nonEmpty T))
    as (spans & E & Ht & Hr & _).
  exists spans. split; [exact E|]. split; [|split].
  - rewrite <- (length_map text), Ht. apply length_map.
  - rewrite Ht, join_surfaces, groupTokens_concat, map_map. reflexivity.
  - rewrite Hr.
    assert (G : forall ws : list AnalyzedWord,
               Js.join "" (map (fun w => Js.join "" (map at1 w)) ws)
               = Js.join "" (map at1 (List.concat ws))).
    { induction ws as [|w ws IH]; [reflexivity|].
      cbn [map List.concat].
      now rewrite join_empty_cons, map_app, join_empty_app, IH. }
    rewrite G, groupTokens_concat, map_map. reflexivity.
Qed.

(** X7.  The colour of a part of speech: the class the table gives it when
    it is one of the table's keys, the class of その他 when it is any other
    tag; only a tag that names a property of [Object.prototype] gets no
    class string. *)
Theorem color_of_pos (pos : string) :
  (forall c, own posColors pos = Some c -> colorClass pos = Own c)
  /\ (own posColors pos = None -> ~ In pos objectPrototype ->
      colorClass pos = Own "bg-gray-200 text-gray-700")
  /\ (~ In pos objectPrototype ->
      exists c, colorClass pos = Own c /\ c <> "" /\ In c (map snd posColors))
  /\ (In pos objectPrototype -> colorClass pos = Inherited).
Proof.
  assert (Hvals : forall k c, In (k, c) posColors -> Js.truthy c = true).
  { intros k c Hin. cbn in Hin.
    repeat (destruct Hin as [Hin|Hin];
            [injection Hin as <- <-; reflexivity|]).
    now elim Hin. }
  assert (Hown : forall c, own posColors pos = Some c -> colorClass pos = Own c).
  { intros c Hc. unfold colorClass, get. rewrite Hc. cbn [orElse].
    now rewrite (Hvals pos c (own_in _ _ _ Hc)). }
  assert (Hnot : ~ In pos objectPrototype ->
                 existsb (String.eqb pos) objectPrototype = false).
  { intros Hn. destruct (existsb _ _) eqn:E; [|reflexivity].
    apply existsb_exists in E. destruct E as (x & Hx & Ex).
    apply String.eqb_eq in Ex. subst. now elim Hn. }
  assert (Hmiss : own posColors pos = None -> ~ In pos objectPrototype ->
                  colorClass pos = Own "bg-gray-200 text-gray-700").
  { intros Hc Hn. unfold colorClass, get at 1. rewrite Hc, (Hnot Hn).
    reflexivity. }
  split; [exact Hown|]. split; [exact Hmiss|]. split.
  - intros Hn. destruct (own posColors pos) as [c|] eqn:Hc.
    + exists c. split; [now apply Hown|].
      pose proof (own_in _ _ _ Hc) as Hin. split.
      * intros ->. pose proof (Hvals _ _ Hin). discriminate.
      * apply in_map_iff. now exists (pos, c).
    + eexists. split; [now apply Hmiss|]. split; [discriminate|].
      cbn. tauto.
  - intros Hin. cbn in Hin.
    repeat (destruct Hin as [Hin|Hin]; [subst pos; reflexivity|]).
    now elim Hin.
Qed.

Lemma color_of_pos_witness :
  colorClass "動詞" = Own "bg-red-200 text-red-800"
  /\ colorClass "形状詞" = Own "bg-gray-200 text-gray-700".
Proof.
  split.
  - apply (proj1 (color_of_pos "動詞")). reflexivity.
  - apply (proj1 (proj2 (color_of_pos "形状詞"))); [reflexivity|].
    cbn. intros H.
    repeat (destruct H as [H|H]; [discriminate H|]). exact H.
Defined.

End DisplayResults.

(** * The selection as the display shows it *)

Section SelectionClaims.

Import App AnalysisDisplay.

(** C9, counterexample.  The sentence 猫と猫 is analysed into the three
    words 猫, と, 猫 and the first word is selected: the display marks the
    first and the third word, two different words with the same surface
    text, as the selection. *)
Lemma same_text_words_both_marked :
  let s1 := fst (handleAnalyse (Some Sample.tagger) Sample.typed) in
  let words := match analysis s1 with Some a => word_list a | None => [] end in
  let s2 := handleWordSelect (nth 0 words []) s1 in
  words = [Sample.nekoWord; [("と", "ト", "助詞")]; Sample.nekoWord]
  /\ option_map (map WordSpans.selected)
       (WordSpans.render (analysis s2) (selectedWord s2))
     = Some [true; false; true].
Proof. cbv zeta. split; reflexivity. Qed.

(** C9, amended.  The page holds at most one selected word, the value of
    its [selectedWord] cell, which [handleWordSelect] replaces.  The
    display identifies the selection by value: it marks a word exactly when
    the surfaces of its tokens, joined with a hyphen, equal those of the
    selected word, so every word with the same token surfaces as the
    selected one is marked with it.  This is the flag of every span the
    display renders; it renders (rather than throws) exactly when no
    displayed word is empty. *)
Theorem selection_is_by_key (s : State) (w : AnalyzedWord) :
  let s' := handleWordSelect w s in
  selectedWord s' = Some w
  /\ analysis s' = analysis s
  /\ (forall w', isSelected (selectedWord s') w' = true
                <-> createKey w' = createKey w)
  /\ (forall w', map at0 w' = map at0 w ->
                isSelected (selectedWord s') w' = true)
  /\ (forall a, analysis s = Some a ->
        (WordSpans.render (analysis s') (selectedWord s') <> None
         <-> Forall (fun word : AnalyzedWord => word <> []) (word_list a))
        /\ (forall spans,
              WordSpans.render (analysis s') (selectedWord s') = Some spans ->
              map WordSpans.selected spans
              = map (fun w' => createKey w' =? createKey w) (word_list a)))
  /\ selectedWord (handleCloseInfo s') = None
  /\ (forall w', isSelected (selectedWord (handleCloseInfo s')) w' = false).
Proof.
  cbv zeta. cbn [handleWordSelect handleCloseInfo setSelectedWord
                 selectedWord analysis isSelected].
  split; [reflexivity|]. split; [reflexivity|].
  split; [intros w'; apply String.eqb_eq|].
  split.
  { intros w' H. apply String.eqb_eq. unfold createKey. now rewrite H. }
  split.
  { intros a Ha. rewrite Ha. cbn [WordSpans.render]. split; [split|].
    - apply spans_need_tokens.
    - intros Hn.
      destruct (spans_of_words (Some w) (word_list a) 0 Hn) as (sp & E & _).
      now rewrite E.
    - intros spans E.
      assert (Hn : Forall Grouping.nonEmpty (word_list a)).
      { apply (spans_need_tokens (Some w) _ 0). now rewrite E. }
      destruct (spans_of_words (Some w) (word_list a) 0 Hn)
        as (sp & E' & _ & _ & Hs & _).
      rewrite E in E'. injection E' as <-. exact Hs. }
  split; [reflexivity | intros w'; reflexivity].
Qed.

Lemma selection_is_by_key_witness :
  isSelected
    (selectedWord
       (handleWordSelect Sample.nekoWord
          (fst (handleAnalyse (Some Sample.tagger) Sample.typed))))
    [("猫", "ネコ", "名詞")] = true
  /\ (forall spans,
        WordSpans.render
          (analysis (handleWordSelect Sample.nekoWord
             (fst (handleAnalyse (Some Sample.tagger) Sample.typed))))
          (selectedWord (handleWordSelect Sample.nekoWord
             (fst (handleAnalyse (Some Sample.tagger) Sample.typed))))
        = Some spans ->
        map WordSpans.selected spans = [true; false; true]).
Proof.
  pose proof (selection_is_by_key
                (fst (handleAnalyse (Some Sample.tagger) Sample.typed))
                Sample.nekoWord) as H.
  cbv zeta in H. destruct H as (_ & _ & _ & Hsame & Hshown & _).
  split.
  - apply Hsame. reflexivity.
  - exact (proj2 (Hshown (mkAnalysis
                     [Sample.nekoWord; [("と", "ト", "助詞")]; Sample.nekoWord])
                    eq_refl)).
Defined.

End SelectionClaims.

(** * The analysis handler and the page *)

Section PageMoreFacts.

Import App Page PageInvariant.

(** The three ways [handleAnalyse] ends when it is not rejected at once. *)
Lemma handleAnalyse_runs (tokenizer : KuromojiTokenizer) (s : State) :
  Js.trim (inputText s) <> "" -> tokenizerLoading s = false ->
  handleAnalyse (Some tokenizer) s
  = (match tokenizer (inputText s) with
     | Some tokens =>
         mkState (inputText s)
           (Some (mkAnalysis (Grouping.groupTokens tokens))) None false false None
     | None =>
         mkState (inputText s) None None false false (Some analyseFailedMessage)
     end, [inputText s]).
Proof.
  intros Hb Hl. unfold handleAnalyse, Js.truthy.
  apply String.eqb_neq in Hb. rewrite Hb, Hl. cbn [negb orb isNull].
  destruct (tokenizer (inputText s));
    unfold setIsLoading, setAnalysis, setSelectedWord, setError; cbn;
    now rewrite Hl.
Qed.

(** What [handleAnalyse] can do to a page that is not loading. *)
Lemma handleAnalyse_cases (tk : option KuromojiTokenizer) (s : State) :
  tokenizerLoading s = false ->
  (exists message, fst (handleAnalyse tk s) = setError (Some message) s)
  \/ (isNull tk = false
      /\ ((exists tokens,
              fst (handleAnalyse tk s)
              = mkState (inputText s)
                  (Some (mkAnalysis (Grouping.groupTokens tokens)))
                  None false false None)
          \/ fst (handleAnalyse tk s)
             = mkState (inputText s) None None false false
                 (Some analyseFailedMessage))).
Proof.
  intros Hl. destruct (blank_dec (Js.trim (inputText s))) as [Hb|Hb].
  - left. exists blankMessage. now rewrite handleAnalyse_blank.
  - destruct tk as [tokenizer|].
    + right. split; [reflexivity|].
      rewrite (handleAnalyse_runs tokenizer s Hb Hl). cbn [fst].
      destruct (tokenizer (inputText s)) as [tokens|]; [left|right].
      * now exists tokens.
      * reflexivity.
    + left. exists notReadyMessage.
      rewrite handleAnalyse_notReady; [reflexivity | exact Hb|].
      unfold ready. cbn. now rewrite andb_false_r.
Qed.

(** Closes the side conditions of the invariant that follow from the
    hypotheses by propositional reasoning. *)
Ltac easy_page :=
  try solve [ intuition (try discriminate; try congruence; eauto) ].

Lemma mounted_consistent : consistent mounted.
Proof.
  constructor; cbn; try discriminate; auto.
  - intros [H|H]; discriminate.
  - intros H. now elim H.
Qed.

Lemma handle_consistent (w : World) (e : Event) :
  consistent w -> consistent (handle w e).
Proof.
  intros [Hidle Hsel Hwords Hready Hafter Htimer Hpend Hfail Hneeds].
  destruct w as [s tk tm sc bd]. cbn [app kuromojiTokenizer timer script
    building] in *.
  destruct e as [text|i| |i| |has| | |result]; cbn [handle app].
  - constructor; cbn; easy_page.
  - destruct (nth_error exampleTexts i); constructor; cbn; easy_page.
  - unfold analyseDisabled. rewrite Hidle. cbn [orb].
    destruct (tokenizerLoading s) eqn:Hl.
    { constructor; cbn; rewrite ?Hl; easy_page. }
    cbn [withApp kuromojiTokenizer timer script building].
    destruct (handleAnalyse_cases tk s Hl) as [[m E]|[Htk [[tokens E]|E]]];
      rewrite E; constructor; cbn; rewrite ?Hl; easy_page.
    intros a Ha. injection Ha as <-. now exists tokens.
  - destruct (analysis s) as [a|] eqn:Ha;
      [|constructor; cbn; rewrite ?Ha; easy_page].
    destruct (nth_error (word_list a) i) as [word|] eqn:Hw;
      [|constructor; cbn; rewrite ?Ha; easy_page].
    constructor; cbn; rewrite ?Ha; easy_page.
    intros word' H. injection H as <-. exists a. split; [reflexivity|].
    eapply nth_error_In. exact Hw.
  - constructor; cbn; easy_page.
  - destruct sc; [|constructor; cbn; easy_page].
    destruct has; cbn [onload negb]; constructor; cbn; easy_page.
  - destruct sc; [|constructor; cbn; easy_page].
    unfold onerror. constructor; cbn; easy_page.
  - destruct tm; [|constructor; cbn; easy_page].
    unfold ontimeout. constructor; cbn; easy_page.
  - destruct bd; [|constructor; cbn; easy_page].
    destruct result as [tokenizer|]; cbn [built]; constructor; cbn; easy_page.
Qed.

Lemma run_consistent (events : list Event) :
  forall w, consistent w -> consistent (run w events).
Proof.
  unfold run. induction events as [|e events IH]; intros w H; [exact H|].
  cbn [fold_left]. apply IH, handle_consistent, H.
Qed.

Lemma reachable_consistent (events : list Event) :
  consistent (run mounted events).
Proof. apply run_consistent, mounted_consistent. Qed.

End PageMoreFacts.

Section PageMoreResults.

Import App Page PageInvariant.

Lemma handleAnalyse_keeps_loading (tk : option KuromojiTokenizer) (s : State) :
  tokenizerLoading (fst (handleAnalyse tk s)) = tokenizerLoading s
  /\ inputText (fst (handleAnalyse tk s)) = inputText s.
Proof.
  unfold handleAnalyse.
  destruct (negb _); [split; reflexivity|].
  destruct (tokenizerLoading s || isNull tk); [split; reflexivity|].
  destruct tk as [tokenizer|]; [|split; reflexivity].
  destruct (tokenizer (inputText s)); split; reflexivity.
Qed.

Lemma handle_keeps_ready (w : World) (e : Event) :
  ready (kuromojiTokenizer w) (app w) = true ->
  ready (kuromojiTokenizer (handle w e)) (app (handle w e)) = true.
Proof.
  unfold ready. intros H. apply andb_true_iff in H. destruct H as [Hl Hn].
  apply negb_true_iff in Hl.
  destruct w as [s tk tm sc bd]. cbn [app kuromojiTokenizer] in *.
  destruct e as [text|i| |i| |has| | |result];
    cbn [handle app kuromojiTokenizer timer script building].
  - cbn. now rewrite Hl, Hn.
  - destruct (nth_error exampleTexts i); cbn; now rewrite Hl, Hn.
  - destruct (analyseDisabled s); unfold withApp; cbn [app kuromojiTokenizer].
    + now rewrite Hl, Hn.
    + rewrite (proj1 (handleAnalyse_keeps_loading tk s)). now rewrite Hl, Hn.
  - destruct (analysis s) as [a|]; [destruct (nth_error (word_list a) i)|];
      cbn; now rewrite Hl, Hn.
  - cbn. now rewrite Hl, Hn.
  - destruct sc; [destruct has|]; cbn; rewrite ?Hl, ?Hn; reflexivity.
  - destruct sc; cbn; rewrite ?Hl, ?Hn; reflexivity.
  - destruct tm; cbn; rewrite ?Hl, ?Hn; reflexivity.
  - destruct bd; [destruct result|]; cbn; rewrite ?Hl, ?Hn; reflexivity.
Qed.

(** X8.  The page is never left in the middle of an analysis: whatever
    happened since it was mounted, [isLoading] is false, so the button is
    disabled exactly while the tokenizer is loading and never reads
    "Analyzing...". *)
Theorem never_stuck_analysing (events : list Event) :
  let s := app (run mounted events) in
  isLoading s = false
  /\ analyseDisabled s = tokenizerLoading s
  /\ analyseLabel s
     = (if tokenizerLoading s then "Loading Analyzer..." else "Analyse Text!").
Proof.
  cbv zeta. destruct (reachable_consistent events) as [Hidle _ _ _ _ _ _ _ _].
  unfold analyseDisabled, analyseLabel. rewrite Hidle.
  split; [reflexivity|]. split; reflexivity.
Qed.

(** X9.  Whatever happened since the page was mounted, the selected word
    is one of the displayed words and has a token, so the display renders
    without throwing and the panel's effect finds a base form to look
    up. *)
Theorem selection_is_displayed (events : list Event) (word : AnalyzedWord)
  (Hsel : selectedWord (app (run mounted events)) = Some word) :
  let s := app (run mounted events) in
  (exists a, analysis s = Some a /\ In word (word_list a))
  /\ word <> []
  /\ WordSpans.render (analysis s) (selectedWord s) <> None
  /\ (forall v, snd (WordInfo.effect (Some word) v)
                = Some (at0 (hd noToken word))).
Proof.
  cbv zeta.
  destruct (reachable_consistent events) as [_ Hs Hw _ _ _ _ _ _].
  destruct (Hs word Hsel) as (a & Ha & Hin).
  destruct (Hw a Ha) as (tokens & Htok).
  assert (Hne : Forall Grouping.nonEmpty (word_list a)).
  { rewrite Htok. apply groupTokens_nonEmpty. }
  assert (Hword : word <> []).
  { rewrite Forall_forall in Hne. exact (Hne word Hin). }
  split; [now exists a|]. split; [exact Hword|]. split.
  - rewrite Ha. cbn [WordSpans.render].
    destruct (spans_of_words (selectedWord (app (run mounted events)))
                (word_list a) 0 Hne) as (sp & E & _).
    now rewrite E.
  - intros v. destruct word; [congruence | reflexivity].
Qed.

Lemma selection_is_displayed_witness :
  [("猫", "ネコ", "名詞")] <> ([] : AnalyzedWord)
  /\ WordSpans.render
       (analysis (app (run mounted (session Sample.tagger "猫と猫"))))
       (selectedWord (app (run mounted (session Sample.tagger "猫と猫"))))
     <> None.
Proof.
  pose proof (selection_is_displayed (session Sample.tagger "猫と猫")
                [("猫", "ネコ", "名詞")] eq_refl) as H.
  cbv zeta in H. destruct H as (_ & Hne & Hrender & _).
  split; [exact Hne | exact Hrender].
Defined.


(** X11.  Once the tagger is ready it stays ready, whatever happens
    next. *)
Theorem ready_is_stable (w : World) (events : list Event)
  (Hr : ready (kuromojiTokenizer w) (app w) = true) :
  ready (kuromojiTokenizer (run w events)) (app (run w events)) = true.
Proof.
  revert w Hr. unfold run. induction events as [|e events IH]; intros w Hr.
  - exact Hr.
  - cbn [fold_left]. apply IH, handle_keeps_ready, Hr.
Qed.

Lemma ready_is_stable_witness :
  ready
    (kuromojiTokenizer
       (run (run mounted [ScriptLoaded true; Built (Some Sample.tagger)])
            [TimedOut; ScriptFailed; Typed ""; ClickAnalyse; Built None]))
    (app
       (run (run mounted [ScriptLoaded true; Built (Some Sample.tagger)])
            [TimedOut; ScriptFailed; Typed ""; ClickAnalyse; Built None]))
  = true.
Proof.
  apply (ready_is_stable
           (run mounted [ScriptLoaded true; Built (Some Sample.tagger)])).
  reflexivity.
Defined.

(** X12.  The timeout covers the loading of the script only.  Once the
    script has loaded or failed the timeout is cleared: it changes nothing
    if it is delivered, whether the build is still running or not. *)
Theorem timeout_covers_script_only (events : list Event)
  (Hs : script (run mounted events) = false) :
  timer (run mounted events) = false
  /\ handle (run mounted events) TimedOut = run mounted events.
Proof.
  destruct (reachable_consistent events) as [_ _ _ _ _ Ht _ _ _].
  assert (E : timer (run mounted events) = false).
  { destruct (timer _); [|reflexivity]. rewrite Ht in Hs by reflexivity.
    discriminate. }
  split; [exact E|]. cbn [handle]. now rewrite E.
Qed.

Lemma timeout_covers_script_only_witness :
  handle (run mounted [Typed "猫"; ScriptLoaded true]) TimedOut
  = run mounted [Typed "猫"; ScriptLoaded true].
Proof.
  apply (timeout_covers_script_only [Typed "猫"; ScriptLoaded true]).
  reflexivity.
Defined.

End PageMoreResults.

Section LoaderResults.

Import App Page PageInvariant.

Lemma waiting_for_build_step (w : World) (e : Event) :
  consistent w -> building w = true -> tokenizerLoading (app w) = true ->
  notBuilt e ->
  building (handle w e) = true /\ tokenizerLoading (app (handle w e)) = true.
Proof.
  intros [_ _ _ _ Hafter Htimer _ _ _] Hb Hl He.
  assert (Hsc : script w = false) by (apply Hafter; now left).
  assert (Htm : timer w = false).
  { destruct (timer w); [|reflexivity]. rewrite Htimer in Hsc by reflexivity.
    discriminate. }
  destruct w as [s tk tm sc bd].
  cbn [app building script timer] in *. subst.
  destruct e as [text|i| |i| |has| | |result];
    cbn [handle app kuromojiTokenizer timer script building].
  - split; [reflexivity | exact Hl].
  - destruct (nth_error exampleTexts i); split; auto.
  - unfold analyseDisabled. rewrite Hl, orb_true_r. split; auto.
  - destruct (analysis s) as [a|]; [destruct (nth_error (word_list a) i)|];
      split; auto.
  - split; auto.
  - split; auto.
  - split; auto.
  - split; auto.
  - now elim He.
Qed.

(** X13.  The timeout does not cover the build.  If the script has loaded
    and the build does not call back, nothing else that can happen ends
    the loading: the page keeps loading and the button stays disabled. *)
Theorem build_is_never_timed_out (before after : list Event)
  (Hb : building (run mounted before) = true)
  (Hl : tokenizerLoading (app (run mounted before)) = true)
  (Hafter : Forall notBuilt after) :
  let w := run (run mounted before) after in
  tokenizerLoading (app w) = true
  /\ analyseDisabled (app w) = true
  /\ isNull (kuromojiTokenizer w) = true.
Proof.
  cbv zeta.
  assert (G : forall w, consistent w -> building w = true ->
                tokenizerLoading (app w) = true ->
                consistent (run w after)
                /\ building (run w after) = true
                /\ tokenizerLoading (app (run w after)) = true).
  { unfold run. induction Hafter as [|e after He _ IH]; intros w Hc Hbw Hlw.
    - auto.
    - cbn [fold_left].
      destruct (waiting_for_build_step w e Hc Hbw Hlw He) as [Hb' Hl'].
      apply IH; [now apply handle_consistent | exact Hb' | exact Hl']. }
  destruct (G _ (reachable_consistent before) Hb Hl) as (Hc & _ & Hl').
  split; [exact Hl'|]. split.
  - unfold analyseDisabled. rewrite Hl'. apply orb_true_r.
  - destruct Hc as [_ _ _ Hready _ _ _ _ _].
    destruct (isNull _); [reflexivity|].
    rewrite Hready in Hl' by reflexivity. discriminate.
Qed.

Lemma build_is_never_timed_out_witness :
  tokenizerLoading
    (app (run (run mounted [ScriptLoaded true])
              [TimedOut; ClickAnalyse; ScriptFailed; Typed "猫"]))
  = true.
Proof.
  apply (build_is_never_timed_out [ScriptLoaded true]
           [TimedOut; ClickAnalyse; ScriptFailed; Typed "猫"]);
    try reflexivity.
  repeat constructor.
Defined.

(** X14.  A script that loads after the timeout has fired still makes the
    tagger ready, and the timeout message stays displayed until the next
    analysis replaces it. *)
Theorem late_load_after_timeout (w : World) (tokenizer : KuromojiTokenizer)
  (Ht : timer w = true) (Hs : script w = true) (Hb : building w = false) :
  let w' := run w [TimedOut; ScriptLoaded true; Built (Some tokenizer)] in
  ready (kuromojiTokenizer w') (app w') = true
  /\ error (app w') = Some timedOutMessage
  /\ (isLoading (app w) = false -> Js.trim (inputText (app w)) <> "" ->
      error (app (handle w' ClickAnalyse))
      = match tokenizer (inputText (app w)) with
        | Some _ => None
        | None => Some analyseFailedMessage
        end).
Proof.
  destruct w as [s tk tm sc bd]. cbn [timer script building app] in *. subst.
  cbv zeta. unfold run. cbn [fold_left handle timer script building ontimeout
    onload negb built app kuromojiTokenizer].
  split; [reflexivity|]. split; [reflexivity|].
  intros Hi Hne. unfold analyseDisabled.
  cbn [isLoading tokenizerLoading setTokenizerLoading setError].
  rewrite Hi. cbn [orb withApp app kuromojiTokenizer].
  rewrite handleAnalyse_runs; [|exact Hne | reflexivity].
  cbn [fst inputText setTokenizerLoading setError].
  destruct (tokenizer (inputText s)); reflexivity.
Qed.

Lemma late_load_after_timeout_witness :
  ready
    (kuromojiTokenizer
       (run mounted [TimedOut; ScriptLoaded true; Built (Some Sample.tagger)]))
    (app
       (run mounted [TimedOut; ScriptLoaded true; Built (Some Sample.tagger)]))
  = true
  /\ error
       (app (run mounted
               [TimedOut; ScriptLoaded true; Built (Some Sample.tagger)]))
     = Some timedOutMessage.
Proof.
  pose proof (late_load_after_timeout mounted Sample.tagger
                eq_refl eq_refl eq_refl) as H.
  cbv zeta in H. destruct H as (Hr & He & _).
  split; [exact Hr | exact He].
Defined.

(** X15.  An analysis that is not rejected calls [tokenize] exactly once,
    with the text as typed (not trimmed).  If it returns, the grouping of
    its tokens replaces the previous result and the selection and the
    error are cleared; if it throws, the previous result and the selection
    are cleared all the same and the error says the analysis failed. *)
Theorem analysis_replaces_result (tokenizer : KuromojiTokenizer) (s : State)
  (Hb : Js.trim (inputText s) <> "") (Hl : tokenizerLoading s = false) :
  snd (handleAnalyse (Some tokenizer) s) = [inputText s]
  /\ (forall tokens, tokenizer (inputText s) = Some tokens ->
        fst (handleAnalyse (Some tokenizer) s)
        = mkState (inputText s)
            (Some (mkAnalysis (Grouping.groupTokens tokens)))
            None false false None)
  /\ (tokenizer (inputText s) = None ->
        fst (handleAnalyse (Some tokenizer) s)
        = mkState (inputText s) None None false false
            (Some analyseFailedMessage)).
Proof.
  rewrite (handleAnalyse_runs tokenizer s Hb Hl). cbn [fst snd].
  split; [reflexivity|]. split.
  - intros tokens E. now rewrite E.
  - intros E. now rewrite E.
Qed.

Lemma analysis_replaces_result_witness :
  fst (handleAnalyse (Some (fun _ => None))
         (mkState " 猫 " (Some (mkAnalysis [Sample.inuWord]))
            (Some Sample.inuWord) false false None))
  = mkState " 猫 " None None false false (Some analyseFailedMessage).
Proof.
  apply (proj2 (proj2 (analysis_replaces_result (fun _ => None)
           (mkState " 猫 " (Some (mkAnalysis [Sample.inuWord]))
              (Some Sample.inuWord) false false None)
           ltac:(vm_compute; discriminate) eq_refl))).
  reflexivity.
Defined.

(** X16.  Asking for the same analysis twice in a row changes nothing more
    than asking once: the second request ends in the same state and makes
    the same calls. *)
Theorem analyse_twice_is_analyse_once (tk : option KuromojiTokenizer)
  (s : State) :
  handleAnalyse tk (fst (handleAnalyse tk s)) = handleAnalyse tk s.
Proof.
  destruct (blank_dec (Js.trim (inputText s))) as [Hb|Hb].
  - replace (fst (handleAnalyse tk s)) with (setError (Some blankMessage) s)
      by (now rewrite handleAnalyse_blank).
    apply handleAnalyse_forgets_error.
  - destruct (ready tk s) eqn:Hr.
    + unfold ready in Hr. apply andb_true_iff in Hr. destruct Hr as [Hl Hn].
      apply negb_true_iff in Hl. destruct tk as [tokenizer|]; [|discriminate].
      rewrite (handleAnalyse_runs tokenizer s Hb Hl). cbn [fst].
      destruct (tokenizer (inputText s)) as [tokens|] eqn:E;
        (rewrite handleAnalyse_runs; [cbn [inputText]; now rewrite E
                                     | exact Hb | reflexivity]).
    + replace (fst (handleAnalyse tk s))
        with (setError (Some notReadyMessage) s)
        by (now rewrite handleAnalyse_notReady).
      apply handleAnalyse_forgets_error.
Qed.

End LoaderResults.

(** * The word panel: what it shows *)

Section PanelFacts.

Import Jisho WordInfo JsExtra.

Lemma senseLines_all (l : list JishoSense) :
  forall index, exists lines,
    mapIndexed PanelView.senseLines index l = Some lines
    /\ List.length lines = List.length l
    /\ map snd lines = map (fun s => Js.join ", " (parts_of_speech s)) l.
Proof.
  induction l as [|s l IH]; intros index.
  - exists []. repeat split.
  - destruct (IH (S index)) as (lines & E & Hlen & Hpos).
    cbn [mapIndexed PanelView.senseLines]. rewrite E.
    eexists. split; [reflexivity|]. cbn [List.length map snd].
    now rewrite Hlen, Hpos.
Qed.

(** Loading is shown only while some lookup is in flight. *)
Lemma react_loading (p : Panel) (e : Event) :
  (isLoading (view p) = true -> inflight p <> []) ->
  isLoading (view (react p e)) = true -> inflight (react p e) <> [].
Proof.
  intros Hp. destruct e as [w| |i fetched]; cbn [react].
  - destruct w as [|t w]; cbn; [discriminate|].
    intros _ H. destruct (inflight p); discriminate.
  - cbn. exact Hp.
  - destruct (nth_error (inflight p) i); [|exact Hp].
    cbn [view]. destruct (getWordMeaningWithJisho fetched); cbn; discriminate.
Qed.

Lemma run_loading (events : list Event) :
  forall p,
    (isLoading (view p) = true -> inflight p <> []) ->
    isLoading (view (run p events)) = true -> inflight (run p events) <> [].
Proof.
  unfold run. induction events as [|e events IH]; intros p Hp; [exact Hp|].
  cbn [fold_left]. apply IH, react_loading, Hp.
Qed.

End PanelFacts.

Section PanelResults.

Import Jisho WordInfo JsExtra.

(** X17.  When every lookup that was sent has settled, the panel is not
    loading: from the start of the page on, "Loading definition..." is
    shown only while a lookup is in flight. *)
Theorem loading_needs_a_lookup (events : list Event)
  (Hnone : inflight (run start events) = []) :
  isLoading (view (run start events)) = false
  /\ (forall details,
        PanelView.render (selectedWord (run start events))
          (view (run start events)) = Some details ->
        PanelView.loadingShown details = false).
Proof.
  assert (E : isLoading (view (run start events)) = false).
  { destruct (isLoading _) eqn:El; [|reflexivity].
    elim (run_loading events start); [discriminate | exact El | exact Hnone]. }
  split; [exact E|].
  intros details H. unfold PanelView.render in H.
  destruct (selectedWord _); [|discriminate].
  injection H as <-. exact E.
Qed.

Lemma loading_needs_a_lookup_witness :
  isLoading
    (view (run start [Select Sample.nekoWord; Select Sample.inuWord;
                      Settle 0 Rejected; Settle 0 (Sample.answer [])]))
  = false.
Proof.
  apply (loading_needs_a_lookup
           [Select Sample.nekoWord; Select Sample.inuWord;
            Settle 0 Rejected; Settle 0 (Sample.answer [])]).
  reflexivity.
Defined.

(** X18.  What the panel shows for a word with a token.  Right after the
    selection: the word's surface, reading and parts of speech, and the
    loading line alone, whatever was shown before.  After its lookup has
    failed: the error line and the not-found line together.  After it has
    succeeded with an entry: one block per sense of the entry and neither
    line.  After it has succeeded with no entry: the not-found line
    alone. *)
Theorem panel_shows_outcome (p : Panel) (w : AnalyzedWord) (fetched : Fetched)
  (Hw : w <> []) :
  let header loading err senses none :=
    Some (PanelView.mkDetails
            (Js.join "" (map at0 w)) (Js.join "" (map at1 w))
            (Js.join ", " (map at2 w)) loading err senses none) in
  let selected := react p (Select w) in
  let settled := react selected (Settle (List.length (inflight p)) fetched) in
  PanelView.render (selectedWord selected) (view selected)
    = header true None None false
  /\ (failed fetched ->
      PanelView.render (selectedWord settled) (view settled)
        = header false (Some fetchFailedMessage) None true)
  /\ (~ failed fetched -> entries fetched = [] ->
      PanelView.render (selectedWord settled) (view settled)
        = header false None None true)
  /\ (forall first rest,
        ~ failed fetched -> entries fetched = first :: rest ->
        exists lines,
          PanelView.render (selectedWord settled) (view settled)
            = header false None (Some lines) false
          /\ List.length lines = List.length (senses first)).
Proof.
  cbv zeta. rewrite (react_select p w Hw).
  rewrite (react_settle _ _ _ (at0 (nth 0 w noToken)))
    by (cbn [inflight]; apply nth_error_end).
  cbn [view selectedWord].
  split; [reflexivity|]. split; [|split].
  - intros Hf. destruct (lookup_throws fetched Hf) as [e ->]. reflexivity.
  - intros Hok He. rewrite (lookup_returns fetched Hok), He. reflexivity.
  - intros first rest Hok He. rewrite (lookup_returns fetched Hok), He.
    destruct (senseLines_all (senses first) 0) as (lines & E & Hlen & _).
    exists lines. split; [|exact Hlen].
    cbn [hd_error fetchMeaning_settle setIsLoading setJishoData
         PanelView.render jishoData isLoading error].
    now rewrite E.
Qed.

Lemma panel_shows_outcome_witness :
  PanelView.render
    (selectedWord (run start [Select Sample.nekoWord; Settle 0 Rejected]))
    (view (run start [Select Sample.nekoWord; Settle 0 Rejected]))
  = Some (PanelView.mkDetails "猫" "ネコ" "名詞" false
            (Some fetchFailedMessage) None true).
Proof.
  apply (proj1 (proj2 (panel_shows_outcome start Sample.nekoWord Rejected
                         ltac:(discriminate)))).
  exact I.
Defined.

(** X19.  The loading line belongs to no lookup in particular.  With two
    words selected in a row, the first lookup to settle ends the loading:
    if the lookup of the first word settles first and found nothing, the
    panel shows the second word with the not-found line while the lookup
    for the second word is still in flight. *)
Theorem not_found_shown_too_early (p : Panel) (A B : AnalyzedWord)
  (fa : Fetched) (HA : A <> []) (HB : B <> [])
  (Hok : ~ failed fa) (Hnone : entries fa = []) :
  let p' := run p [Select A; Select B; Settle (List.length (inflight p)) fa] in
  selectedWord p' = Some B
  /\ inflight p' = inflight p ++ [at0 (nth 0 B noToken)]
  /\ exists details,
       PanelView.render (selectedWord p') (view p') = Some details
       /\ PanelView.loadingShown details = false
       /\ PanelView.notFoundShown details = true.
Proof.
  cbv zeta. unfold run. cbn [fold_left].
  rewrite (react_select_twice p A B HA HB).
  rewrite (react_settle _ _ _ (at0 (nth 0 A noToken)))
    by (cbn [inflight]; apply nth_error_end).
  cbn [view selectedWord inflight].
  rewrite removeAt_end, (lookup_returns fa Hok), Hnone.
  split; [reflexivity|]. split; [reflexivity|].
  eexists. split; [reflexivity|]. split; reflexivity.
Qed.

Lemma not_found_shown_too_early_witness :
  inflight (run start [Select Sample.nekoWord; Select Sample.inuWord;
                       Settle 0 (Sample.answer [])])
  = ["犬"].
Proof.
  apply (not_found_shown_too_early start Sample.nekoWord Sample.inuWord
           (Sample.answer []) ltac:(discriminate) ltac:(discriminate)).
  - intros [H|H]; discriminate H.
  - reflexivity.
Defined.

End PanelResults.

(** * The proxy route *)

Section RouteResults.

Import Jisho Route.

Lemma GET_missing (keyword : option string) (upstream : Fetched) :
  keyword = None \/ keyword = Some "" ->
  GET keyword upstream = (keywordRequired, []).
Proof. intros [->| ->]; reflexivity. Qed.

Lemma GET_failed (k : string) (upstream : Fetched) :
  k <> "" -> failed upstream ->
  GET (Some k) upstream = (proxyFailed, [k]).
Proof.
  intros Hk Hf. unfold GET, Js.truthy. apply String.eqb_neq in Hk.
  rewrite Hk. cbn [negb]. f_equal.
  destruct upstream as [|[o st j]]; [reflexivity|].
  cbn [failed ok json] in *. destruct Hf as [->| ->]; [reflexivity|].
  destruct o; reflexivity.
Qed.

Lemma GET_found (k : string) (upstream : Fetched) :
  k <> "" -> ~ failed upstream ->
  exists d,
    GET (Some k) upstream = (mkReply (DataPayload d) 200, [k])
    /\ entries upstream = match d with Some l => l | None => [] end.
Proof.
  intros Hk Hf. unfold GET, Js.truthy. apply String.eqb_neq in Hk.
  rewrite Hk. cbn [negb].
  destruct upstream as [|[o st j]]; [now elim Hf|].
  cbn [failed ok json] in *.
  destruct o; [|elim Hf; now left].
  destruct j as [[d]|]; [|elim Hf; now right].
  exists d. split; [reflexivity|]. destruct d; reflexivity.
Qed.

Lemma keyword_dec (keyword : option string) :
  (keyword = None \/ keyword = Some "")
  \/ (exists k, keyword = Some k /\ k <> "").
Proof.
  destruct keyword as [[|c k]|]; auto.
  right. eexists. split; [reflexivity | discriminate].
Qed.

(** X20.  The route answers 200, 400 or 500 and nothing else.  Without a
    keyword (none or an empty one) it answers 400 and does not call
    jisho.org; with one it calls jisho.org once, for that keyword, and
    answers 200 with the upstream [data] exactly when that call did not
    fail, 500 otherwise. *)
Theorem proxy_reply (keyword : option string) (upstream : Fetched) :
  let reply := fst (GET keyword upstream) in
  let asked := snd (GET keyword upstream) in
  (code reply = 200 \/ code reply = 400 \/ code reply = 500)%Z
  /\ (keyword = None \/ keyword = Some "" ->
      reply = keywordRequired /\ asked = [])
  /\ (forall k, keyword = Some k -> k <> "" ->
      asked = [k]
      /\ (failed upstream -> reply = proxyFailed)
      /\ (~ failed upstream ->
          exists d, reply = mkReply (DataPayload d) 200
                    /\ entries upstream = match d with Some l => l | None => [] end)).
Proof.
  cbv zeta. split; [|split].
  - destruct (keyword_dec keyword) as [Hm|(k & -> & Hk)].
    + rewrite (GET_missing keyword upstream Hm). right. now left.
    + destruct (failed_dec upstream) as [Hf|Hf].
      * rewrite (GET_failed k upstream Hk Hf). right. now right.
      * destruct (GET_found k upstream Hk Hf) as (d & -> & _). now left.
  - intros Hm. now rewrite (GET_missing keyword upstream Hm).
  - intros k -> Hk. split; [|split].
    + destruct (failed_dec upstream) as [Hf|Hf].
      * now rewrite (GET_failed k upstream Hk Hf).
      * destruct (GET_found k upstream Hk Hf) as (d & -> & _). reflexivity.
    + intros Hf. now rewrite (GET_failed k upstream Hk Hf).
    + intros Hf. destruct (GET_found k upstream Hk Hf) as (d & -> & He).
      now exists d.
Qed.

Lemma proxy_reply_witness :
  fst (GET (Some "") (Sample.answer [Sample.nekoEntry])) = keywordRequired
  /\ snd (GET (Some "") (Sample.answer [Sample.nekoEntry])) = []
  /\ snd (GET (Some "猫") Rejected) = ["猫"]
  /\ fst (GET (Some "猫") Rejected) = proxyFailed.
Proof.
  pose proof (proxy_reply (Some "") (Sample.answer [Sample.nekoEntry])) as H1.
  pose proof (proxy_reply (Some "猫") Rejected) as H2.
  cbv zeta in H1, H2.
  destruct H1 as (_ & H1 & _). destruct (H1 (or_intror eq_refl)) as [Ha Hb].
  destruct H2 as (_ & _ & H2).
  destruct (H2 "猫" eq_refl ltac:(discriminate)) as (Hc & Hd & _).
  split; [exact Ha|]. split; [exact Hb|]. split; [exact Hc | exact (Hd I)].
Defined.

(** X21.  The page's lookup through the route.  It returns the first
    entry jisho.org gave, or none, exactly when a keyword was sent and the
    upstream call did not fail; it throws for status 400 without a keyword
    and for status 500 when the upstream call failed.  A reply of the
    route is never unreadable to the page. *)
Theorem lookup_through_proxy (keyword : option string) (upstream : Fetched) :
  let result :=
    getWordMeaningWithJisho (received (fst (GET keyword upstream))) in
  (keyword = None \/ keyword = Some "" -> result = Throws (BadStatus 400))
  /\ (forall k, keyword = Some k -> k <> "" ->
      (failed upstream -> result = Throws (BadStatus 500))
      /\ (~ failed upstream ->
          result = Returns (hd_error (entries upstream))))
  /\ result <> Throws BodyUnreadable
  /\ result <> Throws FetchFailed.
Proof.
  cbv zeta.
  assert (H1 : keyword = None \/ keyword = Some "" ->
               getWordMeaningWithJisho (received (fst (GET keyword upstream)))
               = Throws (BadStatus 400)).
  { intros Hm. now rewrite (GET_missing keyword upstream Hm). }
  assert (H2 : forall k, keyword = Some k -> k <> "" -> failed upstream ->
               getWordMeaningWithJisho (received (fst (GET keyword upstream)))
               = Throws (BadStatus 500)).
  { intros k -> Hk Hf. now rewrite (GET_failed k upstream Hk Hf). }
  assert (H3 : forall k, keyword = Some k -> k <> "" -> ~ failed upstream ->
               getWordMeaningWithJisho (received (fst (GET keyword upstream)))
               = Returns (hd_error (entries upstream))).
  { intros k -> Hk Hf. destruct (GET_found k upstream Hk Hf) as (d & -> & ->).
    destruct d as [[|e l]|]; reflexivity. }
  split; [exact H1|]. split; [intros k Hk Hne; split; eauto|].
  destruct (keyword_dec keyword) as [Hm|(k & Hk & Hne)].
  - rewrite (H1 Hm). split; discriminate.
  - destruct (failed_dec upstream) as [Hf|Hf].
    + rewrite (H2 k Hk Hne Hf). split; discriminate.
    + rewrite (H3 k Hk Hne Hf). split; discriminate.
Qed.

Lemma lookup_through_proxy_witness :
  getWordMeaningWithJisho
    (received (fst (GET (Some "猫")
                      (Sample.answer [Sample.nekoEntry; Sample.inuEntry]))))
  = Returns (Some Sample.nekoEntry).
Proof.
  apply (proj1 (proj2 (lookup_through_proxy (Some "猫")
           (Sample.answer [Sample.nekoEntry; Sample.inuEntry]))) "猫" eq_refl).
  - discriminate.
  - intros [H|H]; discriminate H.
Defined.

End RouteResults.

(** * The theme switch *)

Section ThemeFacts.

Import Theme ThemeInvariant.

Lemma remove_spec (c x : string) (l : list string) :
  In x (remove c l) <-> In x l /\ x <> c.
Proof.
  unfold remove. rewrite filter_In, negb_true_iff, String.eqb_neq. tauto.
Qed.

Lemma add_spec (c x : string) (l : list string) :
  In x (add c l) <-> In x l \/ x = c.
Proof.
  unfold add. destruct (existsb _ l) eqn:E.
  - apply existsb_exists in E. destruct E as (y & Hy & Ey).
    apply String.eqb_eq in Ey. subst y.
    split; [now left | intros [H| ->]; assumption].
  - rewrite in_app_iff. cbn [In]. intuition (subst; auto).
Qed.

Lemma remove_remove (c : string) (l : list string) :
  remove c (remove c l) = remove c l.
Proof.
  unfold remove. induction l as [|x l IH]; [reflexivity|].
  cbn [filter]. destruct (negb (x =? c)) eqn:E; [|exact IH].
  cbn [filter]. now rewrite E, IH.
Qed.

Lemma remove_add (c : string) (l : list string) :
  remove c (add c l) = remove c l.
Proof.
  unfold add. destruct (existsb _ l); [reflexivity|].
  unfold remove. rewrite filter_app. cbn [filter].
  rewrite String.eqb_refl. cbn [negb]. apply app_nil_r.
Qed.

(** What the [[theme]] effect leaves in the browser. *)
Lemma sync_spec (t : string) (b : Browser) :
  stored (sync t b) = Some t
  /\ (In "dark" (classList (sync t b)) <-> t = "dark")
  /\ remove "dark" (classList (sync t b)) = remove "dark" (classList b).
Proof.
  unfold sync. cbn [stored classList]. split; [reflexivity|].
  destruct (t =? "dark") eqn:E.
  - apply String.eqb_eq in E. split.
    + rewrite add_spec. tauto.
    + apply remove_add.
  - apply String.eqb_neq in E. split.
    + rewrite remove_spec. tauto.
    + apply remove_remove.
Qed.

Lemma setTheme_theme (v : string) (p : Provider) :
  theme (setTheme v p) = v.
Proof.
  unfold setTheme. destruct (v =? theme p) eqn:E; [|reflexivity].
  apply String.eqb_eq in E. now rewrite E.
Qed.

Lemma setTheme_synced (v : string) (p : Provider) :
  synced p -> synced (setTheme v p).
Proof.
  intros Hp. unfold setTheme. destruct (v =? theme p); [exact Hp|].
  unfold synced. cbn [theme browser].
  destruct (sync_spec v (browser p)) as (Hs & Hd & _). now split.
Qed.

Lemma setTheme_others (v : string) (p : Provider) :
  remove "dark" (classList (browser (setTheme v p)))
  = remove "dark" (classList (browser p)).
Proof.
  unfold setTheme. destruct (v =? theme p); [reflexivity|].
  cbn [browser]. apply sync_spec.
Qed.

(** A click always changes the theme, so the effect always runs. *)
Lemma toggle_runs (p : Provider) :
  toggle p
  = let v := if theme p =? "dark" then "light" else "dark" in
    mkProvider v (sync v (browser p)).
Proof.
  unfold toggle, setTheme. destruct (theme p =? "dark") eqn:E.
  - apply String.eqb_eq in E. now rewrite E.
  - rewrite String.eqb_sym, E. reflexivity.
Qed.

Lemma mount_spec (b : Browser) :
  synced (mount b)
  /\ theme (mount b) = restored b
  /\ remove "dark" (classList (browser (mount b)))
     = remove "dark" (classList b).
Proof.
  assert (H0 : synced (mkProvider "light" (sync "light" b))).
  { unfold synced. cbn [theme browser].
    destruct (sync_spec "light" b) as (Hs & Hd & _). now split. }
  assert (O0 : remove "dark" (classList (sync "light" b))
               = remove "dark" (classList b)) by apply sync_spec.
  unfold mount, restored.
  destruct (stored b) as [t|];
    [|split; [exact H0 | split; [reflexivity | exact O0]]].
  destruct (Js.truthy t);
    [|split; [exact H0 | split; [reflexivity | exact O0]]].
  split; [now apply setTheme_synced|]. split; [apply setTheme_theme|].
  now rewrite setTheme_others.
Qed.

Lemma restored_truthy (b : Browser) : restored b <> "".
Proof.
  unfold restored. destruct (stored b) as [t|]; [|discriminate].
  unfold Js.truthy. destruct (t =? "") eqn:E; cbn [negb]; [discriminate|].
  now apply String.eqb_neq.
Qed.

Lemma reload_restores (p : Provider) :
  synced p -> theme p <> "" -> theme (mount (browser p)) = theme p.
Proof.
  intros [Hs _] Hne. rewrite (proj1 (proj2 (mount_spec _))).
  unfold restored. rewrite Hs. unfold Js.truthy.
  apply String.eqb_neq in Hne. now rewrite Hne.
Qed.

Lemma toggle_spec (p : Provider) :
  synced (toggle p)
  /\ theme (toggle p) = (if theme p =? "dark" then "light" else "dark")
  /\ remove "dark" (classList (browser (toggle p)))
     = remove "dark" (classList (browser p)).
Proof.
  rewrite toggle_runs. cbv zeta. unfold synced. cbn [theme browser].
  destruct (sync_spec (if theme p =? "dark" then "light" else "dark")
              (browser p)) as (Hs & Hd & Ho).
  repeat split; auto; apply Hd.
Qed.

Lemma clicked_spec (n : nat) (b : Browser) :
  synced (clicked n b)
  /\ theme (clicked n b) <> ""
  /\ (1 <= n -> theme (clicked n b) = "light" \/ theme (clicked n b) = "dark")
  /\ remove "dark" (classList (browser (clicked n b)))
     = remove "dark" (classList b).
Proof.
  unfold clicked. induction n as [|n (Hs & Hne & _ & Ho)].
  - change (Nat.iter 0 toggle (mount b)) with (mount b).
    destruct (mount_spec b) as (Hs & Ht & Ho).
    split; [exact Hs|]. split; [|split; [lia | exact Ho]].
    rewrite Ht. apply restored_truthy.
  - change (Nat.iter (S n) toggle (mount b))
      with (toggle (Nat.iter n toggle (mount b))).
    set (p := Nat.iter n toggle (mount b)) in *.
    destruct (toggle_spec p) as (Hs' & Ht' & Ho').
    assert (Hc : theme (toggle p) = "light" \/ theme (toggle p) = "dark").
    { rewrite Ht'. destruct (theme p =? "dark"); auto. }
    split; [exact Hs'|]. split; [|split; [intros _; exact Hc|]].
    + destruct Hc as [-> | ->]; discriminate.
    + now rewrite Ho'.
Qed.

End ThemeFacts.

Section ThemeResults.

Import Theme ThemeInvariant.

(** X22.  Mounting restores the stored theme: the theme is the stored
    item when there is a non-empty one and light otherwise; the item is
    then (re)written with it, the document has the class [dark] exactly
    for the dark theme, and its other classes are untouched. *)
Theorem mount_restores_theme (b : Browser) :
  theme (mount b) = restored b
  /\ stored (browser (mount b)) = Some (restored b)
  /\ (In "dark" (classList (browser (mount b))) <-> restored b = "dark")
  /\ remove "dark" (classList (browser (mount b)))
     = remove "dark" (classList b).
Proof.
  destruct (mount_spec b) as ((Hs & Hd) & Ht & Ho).
  rewrite <- Ht. auto.
Qed.

(** X23.  A click switches to light from the dark theme and to dark from
    any other, stores the new theme and sets or removes the class [dark]
    accordingly, leaving the other classes alone.  Two clicks give back
    the theme exactly when it was light or dark. *)
Theorem toggle_switches_theme (p : Provider) :
  theme (toggle p) = (if theme p =? "dark" then "light" else "dark")
  /\ stored (browser (toggle p)) = Some (theme (toggle p))
  /\ (In "dark" (classList (browser (toggle p))) <-> theme p <> "dark")
  /\ remove "dark" (classList (browser (toggle p)))
     = remove "dark" (classList (browser p))
  /\ (theme (toggle (toggle p)) = theme p
      <-> theme p = "light" \/ theme p = "dark").
Proof.
  destruct (toggle_spec p) as ((Hs & Hd) & Ht & Ho).
  split; [exact Ht|]. split; [exact Hs|]. split; [|split; [exact Ho|]].
  - rewrite Hd, Ht. destruct (theme p =? "dark") eqn:E.
    + apply String.eqb_eq in E. split; [discriminate | congruence].
    + apply String.eqb_neq in E. tauto.
  - rewrite (proj1 (proj2 (toggle_spec (toggle p)))), Ht.
    destruct (theme p =? "dark") eqn:E; cbn [String.eqb Ascii.eqb Bool.eqb].
    + apply String.eqb_eq in E. rewrite E. tauto.
    + apply String.eqb_neq in E. split.
      * intros <-. now left.
      * intros [->|H]; [reflexivity | contradiction].
Qed.

(** X24.  The theme survives a reload.  After mounting and any number of
    clicks the stored item is the current theme, so mounting again on the
    same browser restores it; and after at least one click the theme is
    light or dark, whatever was stored at first. *)
Theorem theme_survives_reload (n : nat) (b : Browser) :
  let p := clicked n b in
  stored (browser p) = Some (theme p)
  /\ (In "dark" (classList (browser p)) <-> theme p = "dark")
  /\ theme (mount (browser p)) = theme p
  /\ (1 <= n -> theme p = "light" \/ theme p = "dark")
  /\ remove "dark" (classList (browser p)) = remove "dark" (classList b).
Proof.
  cbv zeta. destruct (clicked_spec n b) as (Hs & Hne & Hc & Ho).
  split; [apply Hs|]. split; [apply Hs|].
  split; [now apply reload_restores|]. split; assumption.
Qed.

Lemma theme_survives_reload_witness :
  theme (clicked 1 (mkBrowser (Some "solarized") ["antialiased"])) = "dark"
  /\ theme (mount (browser
              (clicked 1 (mkBrowser (Some "solarized") ["antialiased"]))))
     = "dark".
Proof.
  pose proof (theme_survives_reload 1
                (mkBrowser (Some "solarized") ["antialiased"])) as H.
  cbv zeta in H. destruct H as (_ & _ & Hr & Hc & _).
  split; [|exact Hr].
  destruct (Hc (le_n 1)) as [H|H]; [discriminate H | exact H].
Defined.

End ThemeResults.
